(** * octopus_price_bot: price extraction and alert hysteresis

    A shallow embedding of [octopus_price_bot.py]: the regular-expression
    price extractor ([extract_price_from_text]), the scraper wrapper
    ([fetch_price_by_scraping]), the delivery call
    ([send_telegram_message]) and the alert state machine ([check_price]),
    followed by the properties checked against the specification.

    Conventions of the embedding.
    - A Python [str] is a list of Unicode code points ([N]).  String
      literals are written in UTF-8 and decoded by [txt].
    - Python floats are the binary64 values of [SpecFloat.spec_float];
      [<] and [>=] are [SFltb] and [SFleb], so a NaN compares false both ways.
    - [re.search] is a backtracking matcher with Python's priorities
      (leftmost start, greedy quantifiers); it returns [m.group(1)].
    - The Unicode tables of the runtime are given on the fragment the
      program's pages use: [\s] is Python's full whitespace set, [\d] and
      [str.lower] are the ASCII ones.  On a text of [plain] code points
      (below U+0660, the euro sign, the blanks) they decide every match
      as the runtime does: there [0]-[9] are the only digits, and no
      letter lowers to a character of a pattern.  Beyond them the runtime
      has further digits (from U+0660 on) and lowers U+212A to [k]; the
      properties on which this bears are stated for plain texts.
    - An exception is the [Raises] outcome; the state [dict] is a
      [gmap string value], so that a missing key is a missing key. *)

From Stdlib Require Import ZArith NArith List Ascii String Bool Lia.
From Stdlib.Floats Require Import SpecFloat.
From stdpp Require Import base option list strings gmap fin_maps.
Import ListNotations.

Set Default Proof Using "Type".

(* ===================================================================== *)
(** ** Text *)
(* ===================================================================== *)

Abbreviation char := N (only parsing).
Abbreviation str := (list N) (only parsing).

(** UTF-8 decoding of the bytes of a literal (well-formed input assumed:
    a truncated sequence is dropped). *)
Fixpoint utf8_decode (bs : list N) : str :=
  match bs with
  | [] => []
  | b0 :: r0 =>
    if (b0 <? 128)%N then b0 :: utf8_decode r0
    else match r0 with
    | [] => []
    | b1 :: r1 =>
      if (b0 <? 224)%N then
        ((b0 - 192) * 64 + (b1 - 128))%N :: utf8_decode r1
      else match r1 with
      | [] => []
      | b2 :: r2 =>
        if (b0 <? 240)%N then
          ((b0 - 224) * 4096 + (b1 - 128) * 64 + (b2 - 128))%N :: utf8_decode r2
        else match r2 with
        | [] => []
        | b3 :: r3 =>
          ((b0 - 240) * 262144 + (b1 - 128) * 4096 + (b2 - 128) * 64 + (b3 - 128))%N
            :: utf8_decode r3
        end
      end
    end
  end.

Definition txt (s : string) : str :=
  utf8_decode (List.map N_of_ascii (list_ascii_of_string s)).

Definition nonempty (s : str) : bool :=
  match s with
  | [] => false
  | _ :: _ => true
  end.

(** [str.lower()], one code point at a time, on the ASCII capitals.  The
    runtime lowers other cased letters too; among the [plain] code points
    it turns none of them into a character the patterns name, so the
    matches are the same there.  Above them it lowers U+212A (the Kelvin
    sign) to [k], which this table does not. *)
Definition lower_char (c : char) : char :=
  if ((65 <=? c) && (c <=? 90))%N then (c + 32)%N else c.

(** [text.lower()], by [lower_char]: [text.lower()] itself on ASCII
    texts, and on [plain] texts up to letters no pattern names. *)
Definition py_lower (s : str) : str := List.map lower_char s.

(** [s.replace(",", ".")] *)
Definition comma_to_dot (c : char) : char :=
  if (c =? 44)%N then 46%N else c.

Definition replace_comma (s : str) : str := List.map comma_to_dot s.

(* ===================================================================== *)
(** ** Regular expressions *)
(* ===================================================================== *)

(** Single-character items of the pattern syntax. *)
Inductive cclass :=
  | Lit (c : char)           (* the character itself *)
  | Digit                    (* \d *)
  | Space                    (* \s *)
  | AnyOf (cs : list char)   (* [abc] *)
  | NoneOf (cs : list char). (* [^abc] *)

(** [\d] on the [plain] code points: [0]-[9].  The digit class of a
    [str] pattern, and [float], also take the decimal digits of other
    scripts, the first of which is U+0660. *)
Definition is_digit (c : char) : bool := ((48 <=? c) && (c <=? 57))%N.

(** Unicode whitespace as [\s] sees it in a [str] pattern. *)
Definition is_space (c : char) : bool :=
  (((9 <=? c) && (c <=? 13)) || ((28 <=? c) && (c <=? 32))
   || (c =? 133) || (c =? 160) || (c =? 5760)
   || ((8192 <=? c) && (c <=? 8202))
   || (c =? 8232) || (c =? 8233) || (c =? 8239) || (c =? 8287)
   || (c =? 12288))%N.

Definition mem_char (c : char) (cs : list char) : bool :=
  existsb (N.eqb c) cs.

Definition in_class (k : cclass) (c : char) : bool :=
  match k with
  | Lit a => (c =? a)%N
  | Digit => is_digit c
  | Space => is_space c
  | AnyOf cs => mem_char c cs
  | NoneOf cs => negb (mem_char c cs)
  end.

(** The fragment of the [re] syntax the program uses.  Repetition is only
    ever applied to a single-character item; there is one capturing group. *)
Inductive regex :=
  | Eps
  | One (k : cclass)
  | Star (k : cclass)     (* x*  greedy *)
  | Plus (k : cclass)     (* x+  greedy *)
  | Opt (r : regex)       (* r?  greedy *)
  | Seq (r1 r2 : regex)
  | Group (r : regex).    (* ( r ), group 1 *)

Declare Scope regex_scope.
Delimit Scope regex_scope with re.
Bind Scope regex_scope with regex.
Infix "⋅" := Seq (at level 41, right associativity) : regex_scope.

(** A literal run of characters. *)
Fixpoint lit_seq (s : str) : regex :=
  match s with
  | [] => Eps
  | [c] => One (Lit c)
  | c :: s' => Seq (One (Lit c)) (lit_seq s')
  end.

Definition lit (s : string) : regex := lit_seq (txt s).

(** *** Backtracking matcher

    [rmatch r s g k] matches [r] at the head of [s]; [g] is the current
    content of group 1 and [k] the continuation, called with the rest of
    the subject.  A [None] from the continuation makes the matcher
    backtrack into the most recent choice, as [sre] does. *)
Section Matcher.
Context {R : Type}.

Fixpoint star_match (k : cclass) (s : str) (kont : str -> option R) : option R :=
  match s with
  | c :: s' =>
    if in_class k c then
      match star_match k s' kont with
      | Some x => Some x
      | None => kont s
      end
    else kont s
  | [] => kont s
  end.

Fixpoint rmatch (r : regex) (s : str) (g : option str)
    (kont : str -> option str -> option R) : option R :=
  match r with
  | Eps => kont s g
  | One k =>
    match s with
    | c :: s' => if in_class k c then kont s' g else None
    | [] => None
    end
  | Star k => star_match k s (fun s' => kont s' g)
  | Plus k =>
    match s with
    | c :: s' =>
      if in_class k c then star_match k s' (fun s'' => kont s'' g) else None
    | [] => None
    end
  | Opt r' =>
    match rmatch r' s g kont with
    | Some x => Some x
    | None => kont s g
    end
  | Seq r1 r2 => rmatch r1 s g (fun s' g' => rmatch r2 s' g' kont)
  | Group r' =>
    rmatch r' s g
      (fun s' _ => kont s' (Some (take (length s - length s') s)))
  end.
End Matcher.

(** A match object, reduced to what the program reads from it. *)
Record Match := { group1 : option str }.

(** [re.match]: anchored at the head of the subject. *)
Definition re_match (r : regex) (s : str) : option Match :=
  rmatch r s None (fun _ g => Some {| group1 := g |}).

(** [re.search]: the first start position, left to right, with a match. *)
Fixpoint re_search (r : regex) (s : str) : option Match :=
  match re_match r s with
  | Some m => Some m
  | None =>
    match s with
    | [] => None
    | _ :: s' => re_search r s'
    end
  end.

(** *** Printing a pattern back to its source text *)

Definition show_class (k : cclass) : str :=
  match k with
  | Lit c => [c]
  | Digit => txt "\d"
  | Space => txt "\s"
  | AnyOf cs => txt "[" ++ cs ++ txt "]"
  | NoneOf cs => txt "[^" ++ cs ++ txt "]"
  end.

Fixpoint show (r : regex) : str :=
  match r with
  | Eps => []
  | One k => show_class k
  | Star k => show_class k ++ txt "*"
  | Plus k => show_class k ++ txt "+"
  | Opt (One k) => show_class k ++ txt "?"
  | Opt r' => txt "(?:" ++ show r' ++ txt ")?"
  | Seq r1 r2 => show r1 ++ show r2
  | Group r' => txt "(" ++ show r' ++ txt ")"
  end.

(** *** What a pattern matches

    [matches r u g g']: the pattern [r] matches exactly the text [u] and
    takes the content of group 1 from [g] to [g']. *)
Inductive matches : regex -> str -> option str -> option str -> Prop :=
  | matches_eps g :
      matches Eps [] g g
  | matches_one k c g :
      in_class k c = true -> matches (One k) [c] g g
  | matches_star k u g :
      forallb (in_class k) u = true -> matches (Star k) u g g
  | matches_plus k c u g :
      in_class k c = true -> forallb (in_class k) u = true ->
      matches (Plus k) (c :: u) g g
  | matches_opt_taken r u g g' :
      matches r u g g' -> matches (Opt r) u g g'
  | matches_opt_skipped r g :
      matches (Opt r) [] g g
  | matches_seq r1 r2 u1 u2 g g1 g2 :
      matches r1 u1 g g1 -> matches r2 u2 g1 g2 ->
      matches (Seq r1 r2) (u1 ++ u2) g g2
  | matches_group r u g g' :
      matches r u g g' -> matches (Group r) u g (Some u).

Fixpoint has_group (r : regex) : bool :=
  match r with
  | Group _ => true
  | Opt r' => has_group r'
  | Seq r1 r2 => has_group r1 || has_group r2
  | _ => false
  end.

(** The body of the group that every match of [r] goes through last. *)
Fixpoint group_body (r : regex) : option regex :=
  match r with
  | Group r' => Some r'
  | Seq r1 r2 =>
    match group_body r2 with
    | Some b => Some b
    | None => if has_group r2 then None else group_body r1
    end
  | _ => None
  end.

(** A class that does not tell [,] from [.]. *)
Definition blind_class (k : cclass) : bool :=
  Bool.eqb (in_class k 44%N) (in_class k 46%N).

Fixpoint blind (r : regex) : bool :=
  match r with
  | Eps => true
  | One k | Star k | Plus k => blind_class k
  | Opt r' | Group r' => blind r'
  | Seq r1 r2 => blind r1 && blind r2
  end.

(** The head of [s], if any, is not a digit. *)
Definition digits_end (s : str) : bool :=
  match s with
  | [] => true
  | c :: _ => negb (is_digit c)
  end.

(** Every text matched by [r] contains the character [c]. *)
Fixpoint requires (c : char) (r : regex) : bool :=
  match r with
  | One (Lit a) | Plus (Lit a) => (a =? c)%N
  | Seq r1 r2 => requires c r1 || requires c r2
  | Group r' => requires c r'
  | _ => false
  end.

(** Somewhere in [s] a euro sign directly follows a digit or a blank. *)
Fixpoint priced (s : str) : bool :=
  match s with
  | [] => false
  | c :: s' =>
    match s' with
    | d :: _ => ((is_digit c || is_space c) && (d =? 8364)%N) || priced s'
    | [] => false
    end
  end.

(** Texts, groups and search results that differ at most in [,] against [.]. *)
Definition same_text (s1 s2 : str) : Prop :=
  replace_comma s1 = replace_comma s2.

Definition same_group (g1 g2 : option str) : Prop :=
  match g1, g2 with
  | None, None => True
  | Some n1, Some n2 => same_text n1 n2
  | _, _ => False
  end.

Definition same_result (o1 o2 : option Match) : Prop :=
  match o1, o2 with
  | None, None => True
  | Some m1, Some m2 => same_group (group1 m1) (group1 m2)
  | _, _ => False
  end.

(** [s] is [ip ++ sep :: fp]: digits, [.] or [,], digits. *)
Definition is_numeral (ip : str) (sep : char) (fp : str) : bool :=
  nonempty ip && forallb is_digit ip && ((sep =? 44) || (sep =? 46))%N
  && nonempty fp && forallb is_digit fp.

(* ===================================================================== *)
(** ** Floats *)
(* ===================================================================== *)

(** A Python [float]: an IEEE 754 binary64 value. *)
Definition float := spec_float.

Definition prec : Z := 53.
Definition emax : Z := 1024.

Definition flt (x y : float) : bool := SFltb x y.   (* x < y *)
Definition fge (x y : float) : bool := SFleb y x.   (* x >= y *)

(** Truth value of a float in a condition: false for [0.0] and [-0.0]. *)
Definition float_truthy (x : float) : bool :=
  match x with
  | S754_zero _ => false
  | _ => true
  end.

Fixpoint digits_value (acc : N) (ds : str) : N :=
  match ds with
  | [] => acc
  | d :: ds' => digits_value (10 * acc + (d - 48))%N ds'
  end.

(** The binary64 value nearest to [n / 10^k] (ties to even, overflow to
    infinity), which is what [float()] returns for a decimal numeral. *)
Definition decimal_to_float (n : N) (k : nat) : float :=
  match n with
  | N0 => S754_zero false
  | Npos m =>
    SFdiv prec emax (S754_finite false m 0)
      (S754_finite false (Z.to_pos (10 ^ Z.of_nat k)) 0)
  end.

Fixpoint span_digits (s : str) : str * str :=
  match s with
  | c :: s' =>
    if is_digit c then
      let (ds, r) := span_digits s' in (c :: ds, r)
    else ([], s)
  | [] => ([], [])
  end.

(** [float(s)] on strings of digits and [.]: the numerals [12], [12.],
    [12.5] and [.5] are converted, anything else is the [ValueError]
    ([None]).  Signs, exponents, [inf]/[nan], underscores and surrounding
    blanks, which [float] also reads, are outside the modelled fragment. *)
Definition py_float (s : str) : option float :=
  let (ip, r1) := span_digits s in
  match r1 with
  | [] =>
    if nonempty ip then Some (decimal_to_float (digits_value 0 ip) 0) else None
  | c :: r2 =>
    if (c =? 46)%N then
      let (fp, r3) := span_digits r2 in
      match r3 with
      | [] =>
        if nonempty ip || nonempty fp then
          Some (decimal_to_float (digits_value 0 (ip ++ fp)) (length fp))
        else None
      | _ :: _ => None
      end
    else None
  end.

(** The value of the numeral with integer digits [ip] and fraction
    digits [fp]. *)
Definition numeral_value (ip fp : str) : float :=
  decimal_to_float (digits_value 0 (ip ++ fp)) (length fp).

(* ===================================================================== *)
(** ** Outcomes *)
(* ===================================================================== *)

(** What a call does: it returns a value or raises. *)
Inductive outcome (A : Type) :=
  | Returns (a : A)
  | Raises.
Arguments Returns {A} a.
Arguments Raises {A}.

(* ===================================================================== *)
(** ** extract_price_from_text *)
(* ===================================================================== *)

Inductive price_type := electricity | gas.

(** [(\d+[.,]\d+)] *)
Definition numeral_body : regex :=
  (Plus Digit ⋅ One (AnyOf (txt ".,")) ⋅ Plus Digit)%re.

Definition numeral : regex := Group numeral_body.

(** [(?:\s*<!--[^>]*-->)?] *)
Definition comment : regex :=
  Opt (Star Space ⋅ lit "<!--" ⋅ Star (NoneOf (txt ">")) ⋅ lit "-->").

Definition ws : regex := Star Space.

Definition gas_patterns : list regex :=
  [ numeral ⋅ comment ⋅ ws ⋅ lit "€" ⋅ ws ⋅ Opt (lit "/") ⋅ ws ⋅ Opt (lit "s") ⋅ lit "mc";
    lit "€" ⋅ ws ⋅ numeral ⋅ comment ⋅ ws ⋅ Opt (lit "/") ⋅ ws ⋅ Opt (lit "s") ⋅ lit "mc";
    numeral ⋅ comment ⋅ ws ⋅ lit "€/smc";
    numeral ⋅ comment ⋅ ws ⋅ lit "€/mc";
    numeral ⋅ ws ⋅ lit "€" ⋅ ws ⋅ Opt (lit "/") ⋅ ws ⋅ Opt (lit "s") ⋅ lit "mc";
    lit "€" ⋅ ws ⋅ numeral ⋅ ws ⋅ Opt (lit "/") ⋅ ws ⋅ Opt (lit "s") ⋅ lit "mc";
    numeral ⋅ ws ⋅ lit "€/smc";
    numeral ⋅ ws ⋅ lit "€/mc" ]%re.

Definition electricity_patterns : list regex :=
  [ numeral ⋅ comment ⋅ ws ⋅ lit "€" ⋅ ws ⋅ Opt (lit "/") ⋅ ws ⋅ Opt (lit "k") ⋅ Opt (lit " ") ⋅ lit "wh";
    lit "€" ⋅ ws ⋅ numeral ⋅ comment ⋅ ws ⋅ Opt (lit "/") ⋅ ws ⋅ Opt (lit "k") ⋅ Opt (lit " ") ⋅ lit "wh";
    numeral ⋅ comment ⋅ ws ⋅ lit "€/kWh";
    numeral ⋅ comment ⋅ ws ⋅ lit "€/kW";
    numeral ⋅ ws ⋅ lit "€" ⋅ ws ⋅ Opt (lit "/") ⋅ ws ⋅ Opt (lit "k") ⋅ Opt (lit " ") ⋅ lit "wh";
    lit "€" ⋅ ws ⋅ numeral ⋅ ws ⋅ Opt (lit "/") ⋅ ws ⋅ Opt (lit "k") ⋅ Opt (lit " ") ⋅ lit "wh";
    numeral ⋅ ws ⋅ lit "€/kWh";
    numeral ⋅ ws ⋅ lit "€/kW" ]%re.

(** [(\d+[.,]\d+)\s*€]: the kind-agnostic pattern tried last. *)
Definition fallback_pattern : regex := (numeral ⋅ ws ⋅ lit "€")%re.

Definition patterns_of (price_type : price_type) : list regex :=
  match price_type with
  | gas => gas_patterns
  | electricity => electricity_patterns
  end.

(** [float(m.group(1).replace(",", "."))]; a group that took no part in
    the match is [None], on which [.replace] raises. *)
Definition parse_group (m : Match) : outcome (option float) :=
  match group1 m with
  | None => Raises
  | Some g => Returns (py_float (replace_comma g))
  end.

(** The [for p in patterns] loop.  [Returns (Some x)] is the [return]
    inside the loop, [Returns None] the loop running to its end. *)
Fixpoint scan_patterns (patterns : list regex) (lower : str)
    : outcome (option float) :=
  match patterns with
  | [] => Returns None
  | p :: ps =>
    match re_search p lower with
    | None => scan_patterns ps lower
    | Some m =>
      match parse_group m with
      | Raises => Raises                        (* line 88, outside the try *)
      | Returns (Some x) => Returns (Some x)    (* return float(num) *)
      | Returns None => scan_patterns ps lower  (* except: continue *)
      end
    end
  end.

(** The pattern [p] matches nowhere in [lower]. *)
Definition unmatched (lower : str) (p : regex) : Prop :=
  re_search p lower = None.

Definition extract_price_from_text (text : str) (price_type : price_type)
    : outcome (option float) :=
  let patterns := patterns_of price_type in
  let lower := py_lower text in
  match scan_patterns patterns lower with
  | Raises => Raises
  | Returns (Some x) => Returns (Some x)
  | Returns None =>
    match re_search fallback_pattern lower with
    | Some m =>
      match parse_group m with
      | Returns (Some x) => Returns (Some x)
      | _ => Raises                             (* float() is not guarded here *)
      end
    | None => Returns None
    end
  end.

(* ===================================================================== *)
(** ** The outside world *)
(* ===================================================================== *)

(** [unit] in [check_price]. *)
Definition unit_label (price_type : price_type) : str :=
  match price_type with
  | electricity => txt "€/kWh"
  | gas => txt "€/Smc"
  end.

(** The text handed to [send_telegram_message], as the data the f-string
    is built from: the unit follows from the type, and the UTC timestamp
    is left out. *)
Record message := {
  msg_type : price_type;
  msg_price : float;
  msg_target : float;
  msg_url : string
}.

Record response := { status_code : Z; text : str }.

(** Everything one run reads from outside the program. *)
Record world := {
  TELEGRAM_TOKEN : option str;                 (* os.getenv *)
  TELEGRAM_CHAT_ID : option str;
  requests_get : string -> outcome response;   (* requests.get(url, ...) *)
  visible_text : str -> outcome str;           (* the BeautifulSoup text nodes, joined *)
  requests_post : message -> outcome bool      (* requests.post(...).ok *)
}.

(** [not v] for an environment variable: unset or empty. *)
Definition env_missing (v : option str) : bool :=
  match v with
  | None => true
  | Some s => negb (nonempty s)
  end.

Definition send_telegram_message (w : world) (text : message) : outcome bool :=
  if env_missing (TELEGRAM_TOKEN w) || env_missing (TELEGRAM_CHAT_ID w)
  then Returns false
  else requests_post w text.

(** The whole body is inside [try: ... except Exception: return None]. *)
Definition fetch_price_by_scraping (w : world) (url : string)
    (price_type : price_type) : option float :=
  match requests_get w url with
  | Raises => None
  | Returns r =>
    if (status_code r =? 403)%Z then None
    else if ((400 <=? status_code r) && (status_code r <? 600))%Z
    then None                                   (* r.raise_for_status() *)
    else
      let html := text r in
      let from_visible_text :=
        match visible_text w html with
        | Raises => None
        | Returns visible =>
          match extract_price_from_text visible price_type with
          | Raises => None
          | Returns price => price
          end
        end in
      match extract_price_from_text html price_type with
      | Raises => None
      | Returns (Some price) =>
        if float_truthy price then Some price else from_visible_text
      | Returns None => from_visible_text
      end
  end.

(* ===================================================================== *)
(** ** The state record and check_price *)
(* ===================================================================== *)

(** The scalars [json.loads] can put under a key. *)
Inductive value :=
  | VNone
  | VBool (b : bool)
  | VInt (n : Z)
  | VFloat (x : float)
  | VStr (s : str).

Definition truthy (v : value) : bool :=
  match v with
  | VNone => false
  | VBool b => b
  | VInt n => negb (n =? 0)%Z
  | VFloat x => float_truthy x
  | VStr s => nonempty s
  end.

Definition last_price_key (price_type : price_type) : string :=
  match price_type with
  | electricity => "last_electricity_price"
  | gas => "last_gas_price"
  end.

Definition notified_key (price_type : price_type) : string :=
  match price_type with
  | electricity => "electricity_notified"
  | gas => "gas_notified"
  end.

(** [state.get(key, False)] read as a condition. *)
Definition get_flag (state : gmap string value) (key : string) : bool :=
  truthy (default (VBool false) (state !! key)).

(** [STATE_FILE] is [Some] record when the file exists. *)
Definition load_state (file : option (gmap string value)) : gmap string value :=
  match file with
  | Some s => s
  | None =>
    <["last_electricity_price" := VNone]>
    (<["last_gas_price" := VNone]>
    (<["electricity_notified" := VBool false]>
    (<["gas_notified" := VBool false]> ∅)))
  end.

(** [check_price] returns the updated state, or raises when the delivery
    call does; the second component lists the calls it made to
    [send_telegram_message]. *)
Definition check_price (w : world) (price_type : price_type)
    (tariff_url : string) (target_price : float) (state : gmap string value)
    : outcome (gmap string value) * list message :=
  match fetch_price_by_scraping w tariff_url price_type with
  | None => (Returns state, [])
  | Some price =>
    let state := <[last_price_key price_type := VFloat price]> state in
    let notified_key := notified_key price_type in
    if flt price target_price && negb (get_flag state notified_key) then
      let msg := {| msg_type := price_type; msg_price := price;
                    msg_target := target_price; msg_url := tariff_url |} in
      match send_telegram_message w msg with
      | Raises => (Raises, [msg])
      | Returns ok =>
        (Returns (if ok then <[notified_key := VBool true]> state else state),
         [msg])
      end
    else if fge price target_price && get_flag state notified_key then
      (Returns (<[notified_key := VBool false]> state), [])
    else (Returns state, [])
  end.

(** Module-level configuration of a run. *)
Record config := {
  TARGET_ELECTRICITY_PRICE : float;
  TARGET_GAS_PRICE : float
}.

Definition ELECTRICITY_TARIFF_URL : string := "https://octopusenergy.it/le-nostre-tariffe".
Definition GAS_TARIFF_URL : string := "https://octopusenergy.it/le-nostre-tariffe".

(** One run: the state file after it ([save_state] is reached only when
    nothing raised) and the delivery calls made. *)
Definition main (c : config) (w : world) (file : option (gmap string value))
    : option (gmap string value) * list message :=
  let state := load_state file in
  match check_price w electricity ELECTRICITY_TARIFF_URL
          (TARGET_ELECTRICITY_PRICE c) state with
  | (Raises, sent) => (file, sent)
  | (Returns state, sent1) =>
    match check_price w gas GAS_TARIFF_URL (TARGET_GAS_PRICE c) state with
    | (Raises, sent2) => (file, sent1 ++ sent2)
    | (Returns state, sent2) => (Some state, sent1 ++ sent2)
    end
  end.

(* ===================================================================== *)
(** ** Histories of checks *)
(* ===================================================================== *)

(** One call of [check_price]: the world it ran in and the commodity. *)
Record check := { check_world : world; check_type : price_type }.

Definition price_type_eqb (a b : price_type) : bool :=
  match a, b with
  | electricity, electricity | gas, gas => true
  | _, _ => false
  end.

Section History.
(** Source page and target of each commodity, fixed over the history. *)
Variable url : price_type -> string.
Variable target : price_type -> float.

Definition observation (c : check) : option float :=
  fetch_price_by_scraping (check_world c) (url (check_type c)) (check_type c).

Definition alert_of (c : check) (price : float) : message :=
  {| msg_type := check_type c; msg_price := price;
     msg_target := target (check_type c); msg_url := url (check_type c) |}.

Definition check_step (c : check) (state : gmap string value)
    : outcome (gmap string value) * list message :=
  check_price (check_world c) (check_type c) (url (check_type c))
    (target (check_type c)) state.

(** The checks in order, each on the state the previous one returned;
    every check contributes the list of its delivery calls. *)
Fixpoint run_checks (cs : list check) (state : gmap string value)
    : outcome (gmap string value) * list (list message) :=
  match cs with
  | [] => (Returns state, [])
  | c :: cs' =>
    match check_step c state with
    | (Raises, sent) => (Raises, [sent])
    | (Returns state', sent) =>
      let (r, sents) := run_checks cs' state' in (r, sent :: sents)
    end
  end.

(** A check for [pt] observing a price below target in a world where
    the delivery of its alert succeeds. *)
Definition sets_lock (pt : price_type) (c : check) : bool :=
  price_type_eqb (check_type c) pt &&
  match observation c with
  | Some price =>
    flt price (target pt) &&
    match send_telegram_message (check_world c) (alert_of c price) with
    | Returns true => true
    | _ => false
    end
  | None => false
  end.

(** A check for [pt] observing a price at or above target. *)
Definition clears_lock (pt : price_type) (c : check) : bool :=
  price_type_eqb (check_type c) pt &&
  match observation c with
  | Some price => fge price (target pt)
  | None => false
  end.

(** No check of the list clears the lock of [pt]. *)
Definition quiet (pt : price_type) (cs : list check) : bool :=
  forallb (fun c => negb (clears_lock pt c)) cs.
End History.

(** The two-state machine of one commodity: the lock after an
    observation, given whether a delivery attempted now succeeds. *)
Definition next_lock (lock : bool) (observed : option float) (target : float)
    (delivered : bool) : bool :=
  match observed with
  | None => lock
  | Some price =>
    if flt price target && negb lock then delivered
    else if fge price target && lock then false
    else lock
  end.

(* ===================================================================== *)
(** ** Scenarios *)
(* ===================================================================== *)

(** A world serving [page] with status 200, with credentials set and a
    delivery that answers [delivery].  The page is bare text, without any
    element: [soup.find_all()] is empty and so is the joined visible
    text. *)
Definition serving (page : string) (delivery : outcome bool) : world :=
  {| TELEGRAM_TOKEN := Some (txt "token");
     TELEGRAM_CHAT_ID := Some (txt "chat");
     requests_get := fun _ => Returns {| status_code := 200; text := txt page |};
     visible_text := fun _ => Returns [];
     requests_post := fun _ => delivery |}.

(** A world in which the page cannot be fetched (so that nothing is ever
    handed to [BeautifulSoup]). *)
Definition unreachable (delivery : outcome bool) : world :=
  {| TELEGRAM_TOKEN := Some (txt "token");
     TELEGRAM_CHAT_ID := Some (txt "chat");
     requests_get := fun _ => Raises;
     visible_text := fun _ => Returns [];
     requests_post := fun _ => delivery |}.

Definition tariff_url (pt : price_type) : string :=
  match pt with
  | electricity => ELECTRICITY_TARIFF_URL
  | gas => GAS_TARIFF_URL
  end.

(** The defaults of [TARGET_ELECTRICITY_PRICE] and [TARGET_GAS_PRICE]. *)
Definition f_0_11 : float := decimal_to_float 11 2.
Definition f_0_85 : float := decimal_to_float 85 2.
Definition f_0_05 : float := decimal_to_float 5 2.
Definition f_0_12 : float := decimal_to_float 12 2.
Definition f_0_1067 : float := decimal_to_float 1067 4.

Definition default_target (pt : price_type) : float :=
  match pt with
  | electricity => f_0_11
  | gas => f_0_85
  end.

(** Four electricity checks on pages quoting 0.05, 0.05, 0.12 and 0.05
    while every delivery succeeds, and the state they end in. *)
Definition hysteresis_history : list check :=
  [ {| check_world := serving "0.05 €/kWh" (Returns true); check_type := electricity |};
    {| check_world := serving "0,05 €/kWh" (Returns true); check_type := electricity |};
    {| check_world := serving "0.12 €/kWh" (Returns true); check_type := electricity |};
    {| check_world := serving "0.05<!-- -->€/kWh" (Returns true);
       check_type := electricity |} ].

Definition hysteresis_state : gmap string value :=
  <["electricity_notified" := VBool true]>
  (<["last_electricity_price" := VFloat f_0_05]> (load_state None)).


(* ===================================================================== *)
(** ** Further notions used by the properties of the whole program *)
(* ===================================================================== *)

(** A float that is zero, positive or plus infinity: not NaN, not
    negative, not minus zero. *)
Definition nonneg_float (x : float) : bool :=
  match x with
  | S754_zero false | S754_infinity false | S754_finite false _ _ => true
  | _ => false
  end.

Definition is_nan (x : float) : bool :=
  match x with
  | S754_nan => true
  | _ => false
  end.

(** Every text matched by [r] has at least one character. *)
Fixpoint consumes (r : regex) : bool :=
  match r with
  | One _ | Plus _ => true
  | Seq r1 r2 => consumes r1 || consumes r2
  | Group r' => consumes r'
  | _ => false
  end.

(** The code points on which reading [\d] as the ASCII digits is exact:
    those below U+0660 (the first decimal digit after [9]), the euro sign
    and the blanks. *)
Definition plain (c : char) : bool :=
  ((c <? 1632) || (c =? 8364))%N || is_space c.

(** A class of digits and separators only. *)
Definition numeric_class (k : cclass) : bool :=
  let numeric_char c := (is_digit c || (c =? 46) || (c =? 44))%N in
  match k with
  | Digit => true
  | Lit c => numeric_char c
  | AnyOf cs => forallb numeric_char cs
  | Space | NoneOf _ => false
  end.

(** A pattern that matches digits and separators only. *)
Fixpoint numeric (r : regex) : bool :=
  match r with
  | Eps => true
  | One k | Star k | Plus k => numeric_class k
  | Opt r' | Group r' => numeric r'
  | Seq r1 r2 => numeric r1 && numeric r2
  end.

(** The number of capturing groups of a pattern. *)
Fixpoint groups (r : regex) : nat :=
  match r with
  | Group r' => S (groups r')
  | Opt r' => groups r'
  | Seq r1 r2 => groups r1 + groups r2
  | _ => 0
  end.

(** The pattern has one group, which takes part in every match and holds
    digits and separators only: the strings on which [py_float] is
    [float]. *)
Definition numeric_group (p : regex) : bool :=
  (groups p =? 1)%nat &&
  match group_body p with
  | Some b => numeric b
  | None => false
  end.

(** What one pattern contributes on [lower]: the float of group 1 of its
    leftmost match, if it matches and [float] reads the numeral. *)
Definition parsed (lower : str) (p : regex) : option float :=
  match re_search p lower with
  | Some m =>
    match group1 m with
    | Some g => py_float (replace_comma g)
    | None => None
    end
  | None => None
  end.


(** [n] occurs in [s]. *)
Definition occurs_in (n s : str) : Prop :=
  exists pre post, s = pre ++ n ++ post.

(** The other commodity. *)
Definition other (pt : price_type) : price_type :=
  match pt with
  | electricity => gas
  | gas => electricity
  end.

(** The run has no usable Telegram credentials. *)
Definition no_credentials (w : world) : bool :=
  env_missing (TELEGRAM_TOKEN w) || env_missing (TELEGRAM_CHAT_ID w).

(** Every text the pattern [q] matches, [p] matches too, with the same
    group. *)
Definition subsumes (p q : regex) : Prop :=
  forall u g g', matches q u g g' -> matches p u g g'.

(** The response is one [fetch_price_by_scraping] goes on to scrape:
    [raise_for_status] lets it pass. *)
Definition status_ok (r : response) : bool :=
  negb ((400 <=? status_code r) && (status_code r <? 600))%Z.

(** The four fields are there, each lock is a boolean and each last price
    is [null] or a float that is not negative and not NaN. *)
Definition well_formed (state : gmap string value) : Prop :=
  dom state = {[ "last_electricity_price"; "last_gas_price";
                 "electricity_notified"; "gas_notified" ]} /\
  forall pt,
    (exists b, state !! notified_key pt = Some (VBool b)) /\
    (state !! last_price_key pt = Some VNone \/
     exists x, state !! last_price_key pt = Some (VFloat x) /\
               nonneg_float x = true).

(** Successive runs of [main], each in its own world, on the state file
    the previous run left. *)
Fixpoint run_main (c : config) (ws : list world)
    (file : option (gmap string value)) : option (gmap string value) :=
  match ws with
  | [] => file
  | w :: ws' => run_main c ws' (fst (main c w file))
  end.

(** The delivery calls of a check that sees a price below target while
    the lock is clear. *)
Definition expected_calls (url : price_type -> string)
    (target : price_type -> float) (c : check) : list message :=
  match observation url c with
  | Some price =>
    if flt price (target (check_type c)) then [alert_of url target c price]
    else []
  | None => []
  end.

(** The same world without Telegram credentials. *)
Definition no_env (w : world) : world :=
  {| TELEGRAM_TOKEN := None;
     TELEGRAM_CHAT_ID := TELEGRAM_CHAT_ID w;
     requests_get := requests_get w;
     visible_text := visible_text w;
     requests_post := requests_post w |}.

(** What a check writes: nothing, the observed price, or the observed
    price and a new value of the lock. *)
Definition apply_update (pt : price_type) (u : option (float * option bool))
    (state : gmap string value) : gmap string value :=
  match u with
  | None => state
  | Some (price, None) => <[last_price_key pt := VFloat price]> state
  | Some (price, Some b) =>
    <[notified_key pt := VBool b]> (<[last_price_key pt := VFloat price]> state)
  end.

Definition update_price_nonneg (u : option (float * option bool)) : Prop :=
  match u with
  | Some (price, _) => nonneg_float price = true
  | None => True
  end.

(** A state file that, when present, is well formed. *)
Definition file_ok (file : option (gmap string value)) : Prop :=
  match file with
  | Some state => well_formed state
  | None => True
  end.

(** A world serving the bare text [page] in which the delivery of an
    electricity alert succeeds and the delivery of a gas alert raises. *)
Definition gas_delivery_raises (page : string) : world :=
  {| TELEGRAM_TOKEN := Some (txt "token");
     TELEGRAM_CHAT_ID := Some (txt "chat");
     requests_get := fun _ => Returns {| status_code := 200; text := txt page |};
     visible_text := fun _ => Returns [];
     requests_post := fun msg =>
       match msg_type msg with
       | electricity => Returns true
       | gas => Raises
       end |}.

(* ===================================================================== *)
(** ** Comparison of floats *)
(* ===================================================================== *)

(** [x < y] excludes [x >= y], NaN included. *)
Lemma flt_not_fge (x y : float) : flt x y = true -> fge x y = false.
Proof.
  unfold flt, fge, SFltb, SFleb, SFcompare.
  destruct x as [sx|sx| |sx mx ex], y as [sy|sy| |sy my ey];
    try destruct sx; try destruct sy; simpl; try congruence.
  all: rewrite (Z.compare_antisym ex ey); destruct (ex ?= ey)%Z; simpl;
    try congruence.
  all: change (Pos.compare_cont Eq my mx) with (my ?= mx)%positive;
    change (Pos.compare_cont Eq mx my) with (mx ?= my)%positive;
    rewrite (Pos.compare_antisym mx my); destruct (mx ?= my)%positive;
    simpl; congruence.
Qed.

(* ===================================================================== *)
(** ** The state record *)
(* ===================================================================== *)

Lemma price_key_not_flag_key (a b : price_type) : last_price_key a ≠ notified_key b.
Proof. destruct a, b; discriminate. Qed.

Lemma notified_key_inj (a b : price_type) : notified_key a = notified_key b -> a = b.
Proof. destruct a, b; simpl; intros H; try reflexivity; discriminate H. Qed.

Lemma price_type_eqb_eq (a b : price_type) : price_type_eqb a b = true <-> a = b.
Proof. destruct a, b; simpl; split; congruence. Qed.

Lemma get_flag_insert_ne (s : gmap string value) (k k' : string) (v : value) :
  k ≠ k' -> get_flag (<[k := v]> s) k' = get_flag s k'.
Proof. intros Hne. unfold get_flag. by rewrite lookup_insert_ne. Qed.

Lemma get_flag_insert (s : gmap string value) (k : string) (v : value) :
  get_flag (<[k := v]> s) k = truthy v.
Proof. unfold get_flag. by rewrite lookup_insert_eq. Qed.

Lemma get_flag_missing (s : gmap string value) (k : string) :
  s !! k = None -> get_flag s k = false.
Proof. intros H. unfold get_flag. by rewrite H. Qed.

Lemma get_flag_price (s : gmap string value) (a b : price_type) (v : value) :
  get_flag (<[last_price_key a := v]> s) (notified_key b) = get_flag s (notified_key b).
Proof. apply get_flag_insert_ne, price_key_not_flag_key. Qed.

(** [check_price] once the scraper has produced a price. *)
Lemma check_price_observed w pt url target state price :
  fetch_price_by_scraping w url pt = Some price ->
  check_price w pt url target state =
    let state' := <[last_price_key pt := VFloat price]> state in
    let msg := {| msg_type := pt; msg_price := price;
                  msg_target := target; msg_url := url |} in
    if flt price target && negb (get_flag state (notified_key pt)) then
      match send_telegram_message w msg with
      | Raises => (Raises, [msg])
      | Returns ok =>
        (Returns (if ok then <[notified_key pt := VBool true]> state' else state'),
         [msg])
      end
    else if fge price target && get_flag state (notified_key pt) then
      (Returns (<[notified_key pt := VBool false]> state'), [])
    else (Returns state', []).
Proof.
  intros Hobs. unfold check_price. rewrite Hobs. cbv zeta.
  by rewrite get_flag_price.
Qed.

Lemma check_price_absent w pt url target state :
  fetch_price_by_scraping w url pt = None ->
  check_price w pt url target state = (Returns state, []).
Proof. intros Hobs. unfold check_price. by rewrite Hobs. Qed.

(** The lock of the checked commodity follows [next_lock]. *)
Lemma check_price_lock w pt url target state state' sent :
  check_price w pt url target state = (Returns state', sent) ->
  get_flag state' (notified_key pt) =
    next_lock (get_flag state (notified_key pt))
      (fetch_price_by_scraping w url pt) target
      (match fetch_price_by_scraping w url pt with
       | Some price =>
         match send_telegram_message w
                 {| msg_type := pt; msg_price := price;
                    msg_target := target; msg_url := url |} with
         | Returns ok => ok
         | Raises => false
         end
       | None => false
       end).
Proof.
  destruct (fetch_price_by_scraping w url pt) as [price|] eqn:Hobs; simpl.
  - rewrite (check_price_observed _ _ _ _ _ _ Hobs). cbv zeta.
    destruct (flt price target && negb (get_flag state (notified_key pt))) eqn:Hlow.
    + destruct (send_telegram_message w _) as [ok|]; [|discriminate].
      intros [= <- _]. apply andb_true_iff in Hlow as [_ Hlock].
      destruct ok.
      * by rewrite get_flag_insert.
      * rewrite get_flag_price. by destruct (get_flag state _).
    + destruct (fge price target && get_flag state (notified_key pt)) eqn:Hhigh.
      * intros [= <- _]. by rewrite get_flag_insert.
      * intros [= <- _]. by rewrite get_flag_price.
  - rewrite (check_price_absent _ _ _ _ _ Hobs). by intros [= <- _].
Qed.

(** The lock of the other commodity is not touched. *)
Lemma check_price_other_lock w pt pt' url target state state' sent :
  pt ≠ pt' ->
  check_price w pt url target state = (Returns state', sent) ->
  get_flag state' (notified_key pt') = get_flag state (notified_key pt').
Proof.
  intros Hne.
  assert (Hk : notified_key pt ≠ notified_key pt')
    by (intros H; apply Hne, notified_key_inj, H).
  destruct (fetch_price_by_scraping w url pt) as [price|] eqn:Hobs.
  - rewrite (check_price_observed _ _ _ _ _ _ Hobs). cbv zeta.
    repeat case_match; intros [= <- _];
      rewrite ?(get_flag_insert_ne _ _ _ _ Hk), ?get_flag_price; done.
  - rewrite (check_price_absent _ _ _ _ _ Hobs). by intros [= <- _].
Qed.

(* ===================================================================== *)
(** ** Properties of check_price *)
(* ===================================================================== *)

(** C3: when the scraper finds no price, [check_price] returns the state
    it was given, untouched, and makes no delivery call; a set lock is
    still set afterwards. *)
Theorem absent_observation_keeps_state w pt url target state :
  fetch_price_by_scraping w url pt = None ->
  check_price w pt url target state = (Returns state, []) /\
  (get_flag state (notified_key pt) = true ->
   exists state', fst (check_price w pt url target state) = Returns state' /\
                  get_flag state' (notified_key pt) = true).
Proof.
  intros Hobs. rewrite (check_price_absent _ _ _ _ _ Hobs). split; [done|].
  intros Hlock. by exists state.
Qed.

Lemma absent_observation_keeps_state_witness :
  let state := <["electricity_notified" := VBool true]> (load_state None) in
  check_price (unreachable (Returns true)) electricity ELECTRICITY_TARIFF_URL
    f_0_11 state = (Returns state, []) /\
  (get_flag state (notified_key electricity) = true ->
   exists state',
     fst (check_price (unreachable (Returns true)) electricity
            ELECTRICITY_TARIFF_URL f_0_11 state) = Returns state' /\
     get_flag state' (notified_key electricity) = true).
Proof.
  intros state.
  apply (absent_observation_keeps_state (unreachable (Returns true)) electricity
           ELECTRICITY_TARIFF_URL f_0_11 state).
  reflexivity.
Defined.

(** C4: on a price below target with the lock clear, one delivery call is
    made and the lock becomes what the delivery answered: set on success,
    still clear on failure, where only the last price has changed. *)
Theorem delivery_result_decides_lock w pt url target state price ok :
  fetch_price_by_scraping w url pt = Some price ->
  flt price target = true ->
  get_flag state (notified_key pt) = false ->
  send_telegram_message w {| msg_type := pt; msg_price := price;
                             msg_target := target; msg_url := url |} = Returns ok ->
  exists state',
    check_price w pt url target state =
      (Returns state', [{| msg_type := pt; msg_price := price;
                           msg_target := target; msg_url := url |}]) /\
    get_flag state' (notified_key pt) = ok /\
    state' !! last_price_key pt = Some (VFloat price) /\
    (ok = false -> state' = <[last_price_key pt := VFloat price]> state).
Proof.
  intros Hobs Hlow Hlock Hsend.
  rewrite (check_price_observed _ _ _ _ _ _ Hobs). cbv zeta.
  rewrite Hlow, Hlock, Hsend. simpl.
  eexists. split; [reflexivity|]. destruct ok.
  - rewrite get_flag_insert.
    rewrite lookup_insert_ne by (apply not_eq_sym, price_key_not_flag_key).
    rewrite lookup_insert_eq. by repeat split.
  - rewrite get_flag_price, lookup_insert_eq. by repeat split.
Qed.

Lemma delivery_result_decides_lock_witness :
  exists state',
    check_price (serving "0.05 €/kWh" (Returns false)) electricity
      ELECTRICITY_TARIFF_URL f_0_11 (load_state None) =
      (Returns state', [{| msg_type := electricity; msg_price := f_0_05;
                           msg_target := f_0_11;
                           msg_url := ELECTRICITY_TARIFF_URL |}]) /\
    get_flag state' (notified_key electricity) = false /\
    state' !! last_price_key electricity = Some (VFloat f_0_05) /\
    (false = false ->
     state' = <[last_price_key electricity := VFloat f_0_05]> (load_state None)).
Proof.
  apply (delivery_result_decides_lock (serving "0.05 €/kWh" (Returns false))
           electricity ELECTRICITY_TARIFF_URL f_0_11 (load_state None)
           f_0_05 false); reflexivity.
Defined.

(** C10: a state without the notified key counts as not notified: a price
    below target makes a delivery call, and a price not below target only
    records the last price, without creating the key. *)
Theorem missing_flag_is_armed w pt url target state price :
  state !! notified_key pt = None ->
  fetch_price_by_scraping w url pt = Some price ->
  (flt price target = true ->
   snd (check_price w pt url target state) =
     [{| msg_type := pt; msg_price := price;
         msg_target := target; msg_url := url |}]) /\
  (flt price target = false ->
   check_price w pt url target state =
     (Returns (<[last_price_key pt := VFloat price]> state), []) /\
   <[last_price_key pt := VFloat price]> state !! notified_key pt = None).
Proof.
  intros Hmissing Hobs.
  rewrite (check_price_observed _ _ _ _ _ _ Hobs). cbv zeta.
  rewrite (get_flag_missing _ _ Hmissing). split; intros Hcmp; rewrite Hcmp; simpl.
  - by destruct (send_telegram_message w _) as [[]|].
  - rewrite andb_false_r. split; [done|].
    by rewrite lookup_insert_ne by apply price_key_not_flag_key.
Qed.

Lemma missing_flag_is_armed_witness :
  (flt f_0_05 f_0_11 = true ->
   snd (check_price (serving "0.05 €/kWh" (Returns true)) electricity
          ELECTRICITY_TARIFF_URL f_0_11 ∅) =
     [{| msg_type := electricity; msg_price := f_0_05;
         msg_target := f_0_11; msg_url := ELECTRICITY_TARIFF_URL |}]) /\
  (flt f_0_05 f_0_11 = false ->
   check_price (serving "0.05 €/kWh" (Returns true)) electricity
     ELECTRICITY_TARIFF_URL f_0_11 ∅ =
     (Returns (<[last_price_key electricity := VFloat f_0_05]> ∅), []) /\
   (<[last_price_key electricity := VFloat f_0_05]> ∅ : gmap string value)
     !! notified_key electricity = None).
Proof.
  apply (missing_flag_is_armed (serving "0.05 €/kWh" (Returns true)) electricity
           ELECTRICITY_TARIFF_URL f_0_11 ∅ f_0_05); reflexivity.
Defined.

Lemma recheck_is_fixed w1 w2 pt url target state price state1 sent1 :
  fetch_price_by_scraping w1 url pt = Some price ->
  fetch_price_by_scraping w2 url pt = Some price ->
  (forall msg, send_telegram_message w1 msg = Returns true) ->
  check_price w1 pt url target state = (Returns state1, sent1) ->
  check_price w2 pt url target state1 = (Returns state1, []).
Proof.
  intros Hobs1 Hobs2 Hsend.
  rewrite (check_price_observed _ _ _ _ _ _ Hobs1),
          (check_price_observed _ _ _ _ _ _ Hobs2). cbv zeta.
  rewrite Hsend.
  assert (Hprice : forall s : gmap string value,
             <[last_price_key pt := VFloat price]>
               (<[last_price_key pt := VFloat price]> s) =
             <[last_price_key pt := VFloat price]> s)
    by (intros s; apply insert_insert_eq).
  assert (Hswap : forall (s : gmap string value) v,
             <[last_price_key pt := VFloat price]>
               (<[notified_key pt := v]> (<[last_price_key pt := VFloat price]> s)) =
             <[notified_key pt := v]> (<[last_price_key pt := VFloat price]> s)).
  { intros s v. apply insert_id.
    rewrite lookup_insert_ne by (apply not_eq_sym, price_key_not_flag_key).
    apply lookup_insert_eq. }
  destruct (flt price target) eqn:Hlow; simpl.
  - rewrite (flt_not_fge _ _ Hlow). simpl.
    destruct (get_flag state (notified_key pt)) eqn:Hlock; simpl;
      intros [= <- _].
    + by rewrite get_flag_price, Hlock, Hprice.
    + by rewrite get_flag_insert, Hswap.
  - destruct (fge price target && get_flag state (notified_key pt)) eqn:Hhigh;
      intros [= <- _].
    + rewrite get_flag_insert, andb_false_r, Hswap. done.
    + by rewrite get_flag_price, Hhigh, Hprice.
Qed.

(** C5: checking the same observed price a second time, on the state the
    first check returned under a delivery that always succeeds, returns
    that same state and makes no delivery call. *)
Theorem second_check_changes_nothing w1 w2 pt url target state price :
  fetch_price_by_scraping w1 url pt = Some price ->
  fetch_price_by_scraping w2 url pt = Some price ->
  (forall msg, send_telegram_message w1 msg = Returns true) ->
  exists state1 sent1,
    check_price w1 pt url target state = (Returns state1, sent1) /\
    check_price w2 pt url target state1 = (Returns state1, []).
Proof.
  intros Hobs1 Hobs2 Hsend.
  assert (Hfirst : exists state1 sent1,
             check_price w1 pt url target state = (Returns state1, sent1)).
  { rewrite (check_price_observed _ _ _ _ _ _ Hobs1). cbv zeta. rewrite Hsend.
    repeat case_match; eauto. }
  destruct Hfirst as (state1 & sent1 & Hfirst).
  exists state1, sent1. split; [done|].
  by apply (recheck_is_fixed w1 w2 pt url target state price state1 sent1).
Qed.

Lemma second_check_changes_nothing_witness :
  exists state1 sent1,
    check_price (serving "0.05 €/kWh" (Returns true)) electricity
      ELECTRICITY_TARIFF_URL f_0_11 (load_state None) = (Returns state1, sent1) /\
    check_price (serving "0,05 €/kWh" (Returns false)) electricity
      ELECTRICITY_TARIFF_URL f_0_11 state1 = (Returns state1, []).
Proof.
  apply (second_check_changes_nothing
           (serving "0.05 €/kWh" (Returns true))
           (serving "0,05 €/kWh" (Returns false))
           electricity ELECTRICITY_TARIFF_URL f_0_11 (load_state None) f_0_05);
    reflexivity.
Defined.

(* ===================================================================== *)
(** ** Histories *)
(* ===================================================================== *)

Section HistoryFacts.
Variable url : price_type -> string.
Variable target : price_type -> float.

Lemma initial_state_armed (pt : price_type) :
  get_flag (load_state None) (notified_key pt) = false.
Proof. by destruct pt. Qed.

(** After one check the lock of [pt] is set exactly when the check set
    it, or it was set before and the check did not clear it. *)
Lemma check_step_lock (pt : price_type) (c : check) state state' sent :
  check_step url target c state = (Returns state', sent) ->
  get_flag state' (notified_key pt) =
    sets_lock url target pt c
    || (get_flag state (notified_key pt) && negb (clears_lock url target pt c)).
Proof.
  unfold check_step, sets_lock, clears_lock. intros Hstep.
  destruct (price_type_eqb (check_type c) pt) eqn:Heq; simpl.
  - apply price_type_eqb_eq in Heq. subst pt.
    rewrite (check_price_lock _ _ _ _ _ _ _ Hstep).
    unfold observation, alert_of, next_lock.
    destruct (fetch_price_by_scraping _ _ _) as [price|];
      [|by rewrite andb_true_r].
    destruct (flt price (target (check_type c))) eqn:Hlow; simpl.
    + rewrite (flt_not_fge _ _ Hlow). simpl.
      destruct (get_flag state _); simpl.
      * by rewrite orb_true_r.
      * rewrite orb_false_r.
        by destruct (send_telegram_message _ _) as [[]|].
    + by destruct (fge price _), (get_flag state _).
  - rewrite andb_true_r. eapply check_price_other_lock; [|exact Hstep].
    intros Hsame. rewrite Hsame in Heq. by destruct pt.
Qed.

Lemma run_checks_cons c cs state state' sent :
  check_step url target c state = (Returns state', sent) ->
  fst (run_checks url target (c :: cs) state) =
  fst (run_checks url target cs state').
Proof.
  intros Hstep. simpl. rewrite Hstep.
  by destruct (run_checks url target cs state').
Qed.

Lemma lock_after_checks (pt : price_type) cs : forall state state',
  fst (run_checks url target cs state) = Returns state' ->
  get_flag state' (notified_key pt) = true <->
  (get_flag state (notified_key pt) = true /\ quiet url target pt cs = true) \/
  (exists pre c post, cs = pre ++ c :: post /\
      sets_lock url target pt c = true /\ quiet url target pt post = true).
Proof.
  induction cs as [|c cs IH]; intros state state'.
  - simpl. intros [= <-]. split.
    + intros H. by left.
    + intros [[H _]|(pre & c & post & Hcs & _)]; [done|].
      by destruct pre.
  - destruct (check_step url target c state) as [[state1|] sent] eqn:Hstep;
      [|simpl; rewrite Hstep; discriminate].
    rewrite (run_checks_cons _ cs _ _ _ Hstep). intros Hrun.
    rewrite (IH _ _ Hrun), (check_step_lock pt _ _ _ _ Hstep). simpl.
    split.
    + intros [[Hlock Hq]|(pre & c' & post & -> & Hset & Hq)].
      * apply orb_true_iff in Hlock as [Hset|Hkept].
        -- right. by exists [], c, cs.
        -- apply andb_true_iff in Hkept as [Hlock Hkeep]. left.
           by rewrite Hlock, Hkeep, Hq.
      * right. by exists (c :: pre), c', post.
    + intros [[Hlock Hq]|(pre & c' & post & Hcs & Hset & Hq)].
      * apply andb_true_iff in Hq as [Hkeep Hq]. left.
        by rewrite Hlock, Hkeep, Hq, orb_true_r.
      * destruct pre as [|c0 pre]; simpl in Hcs; injection Hcs as -> ->.
        -- left. by rewrite Hset, Hq.
        -- right. by exists pre, c', post.
Qed.

(** A set lock survives a check that observes nothing or a price below
    target, and that check makes no delivery call. *)
Lemma lock_kept (pt : price_type) (c : check) state :
  check_type c = pt ->
  get_flag state (notified_key pt) = true ->
  (observation url c = None \/
   exists price, observation url c = Some price /\
                 flt price (target pt) = true) ->
  exists state',
    check_step url target c state = (Returns state', []) /\
    get_flag state' (notified_key pt) = true.
Proof.
  intros <- Hlock Hobs. unfold check_step, observation in *.
  destruct Hobs as [Hobs|(price & Hobs & Hlow)].
  - rewrite (check_price_absent _ _ _ _ _ Hobs). by exists state.
  - rewrite (check_price_observed _ _ _ _ _ _ Hobs). cbv zeta.
    rewrite Hlock, (flt_not_fge _ _ Hlow), andb_false_r. simpl.
    eexists. split; [reflexivity|]. by rewrite get_flag_price.
Qed.
End HistoryFacts.

(** C2: along any history of checks from the initial state, the lock of a
    commodity is set exactly when some check of it observed a price below
    target with a successful delivery and no later check of it observed a
    price at or above target; a set lock is kept, with no delivery call, by
    a check that observes nothing or a price below target. *)
Theorem lock_set_below_target_until_recovery url target cs state pt :
  fst (run_checks url target cs (load_state None)) = Returns state ->
  (get_flag state (notified_key pt) = true <->
   exists pre c post,
     cs = pre ++ c :: post /\
     sets_lock url target pt c = true /\
     quiet url target pt post = true) /\
  (forall c,
     check_type c = pt ->
     get_flag state (notified_key pt) = true ->
     (observation url c = None \/
      exists price, observation url c = Some price /\
                    flt price (target pt) = true) ->
     exists state',
       check_step url target c state = (Returns state', []) /\
       get_flag state' (notified_key pt) = true).
Proof.
  intros Hrun. split.
  - rewrite (lock_after_checks url target pt cs _ _ Hrun).
    rewrite initial_state_armed. split.
    + by intros [[? _]|?].
    + by right.
  - intros c. apply lock_kept.
Qed.

Lemma lock_set_below_target_until_recovery_witness :
  (get_flag hysteresis_state (notified_key electricity) = true <->
   exists pre c post,
     hysteresis_history = pre ++ c :: post /\
     sets_lock tariff_url default_target electricity c = true /\
     quiet tariff_url default_target electricity post = true) /\
  (forall c,
     check_type c = electricity ->
     get_flag hysteresis_state (notified_key electricity) = true ->
     (observation tariff_url c = None \/
      exists price, observation tariff_url c = Some price /\
                    flt price (default_target electricity) = true) ->
     exists state',
       check_step tariff_url default_target c hysteresis_state = (Returns state', []) /\
       get_flag state' (notified_key electricity) = true).
Proof.
  apply (lock_set_below_target_until_recovery tariff_url default_target
           hysteresis_history hysteresis_state electricity).
  reflexivity.
Defined.

(** The four transitions of [check_price] on an observed price. *)
Lemma check_price_alerts w pt url target state price ok :
  fetch_price_by_scraping w url pt = Some price ->
  flt price target = true ->
  get_flag state (notified_key pt) = false ->
  send_telegram_message w {| msg_type := pt; msg_price := price;
                             msg_target := target; msg_url := url |} = Returns ok ->
  check_price w pt url target state =
    (Returns (if ok
              then <[notified_key pt := VBool true]>
                     (<[last_price_key pt := VFloat price]> state)
              else <[last_price_key pt := VFloat price]> state),
     [{| msg_type := pt; msg_price := price;
         msg_target := target; msg_url := url |}]).
Proof.
  intros Hobs Hlow Hlock Hsend.
  rewrite (check_price_observed _ _ _ _ _ _ Hobs). cbv zeta.
  by rewrite Hlow, Hlock, Hsend.
Qed.

Lemma check_price_suppressed w pt url target state price :
  fetch_price_by_scraping w url pt = Some price ->
  flt price target = true ->
  get_flag state (notified_key pt) = true ->
  check_price w pt url target state =
    (Returns (<[last_price_key pt := VFloat price]> state), []).
Proof.
  intros Hobs Hlow Hlock.
  rewrite (check_price_observed _ _ _ _ _ _ Hobs). cbv zeta.
  by rewrite Hlock, (flt_not_fge _ _ Hlow), andb_false_r.
Qed.

Lemma check_price_recovers w pt url target state price :
  fetch_price_by_scraping w url pt = Some price ->
  fge price target = true ->
  get_flag state (notified_key pt) = true ->
  check_price w pt url target state =
    (Returns (<[notified_key pt := VBool false]>
                (<[last_price_key pt := VFloat price]> state)), []).
Proof.
  intros Hobs Hhigh Hlock.
  rewrite (check_price_observed _ _ _ _ _ _ Hobs). cbv zeta.
  by rewrite Hlock, Hhigh, andb_false_r.
Qed.

Lemma check_price_idle w pt url target state price :
  fetch_price_by_scraping w url pt = Some price ->
  flt price target = false ->
  get_flag state (notified_key pt) = false ->
  check_price w pt url target state =
    (Returns (<[last_price_key pt := VFloat price]> state), []).
Proof.
  intros Hobs Hlow Hlock.
  rewrite (check_price_observed _ _ _ _ _ _ Hobs). cbv zeta.
  by rewrite Hlock, Hlow, andb_false_r.
Qed.

(** C1: observations 0.05, 0.05, 0.12, 0.05 against the target 0.11, from
    the initial state and with a delivery that always succeeds, make two
    delivery calls: one at the first check and one at the fourth. *)
Theorem hysteresis_two_alerts pt url w1 w2 w3 w4 :
  fetch_price_by_scraping w1 url pt = Some f_0_05 ->
  fetch_price_by_scraping w2 url pt = Some f_0_05 ->
  fetch_price_by_scraping w3 url pt = Some f_0_12 ->
  fetch_price_by_scraping w4 url pt = Some f_0_05 ->
  (forall w msg, In w [w1; w2; w3; w4] ->
                 send_telegram_message w msg = Returns true) ->
  let alert := {| msg_type := pt; msg_price := f_0_05;
                  msg_target := f_0_11; msg_url := url |} in
  exists state,
    run_checks (fun _ => url) (fun _ => f_0_11)
      [ {| check_world := w1; check_type := pt |};
        {| check_world := w2; check_type := pt |};
        {| check_world := w3; check_type := pt |};
        {| check_world := w4; check_type := pt |} ]
      (load_state None)
    = (Returns state, [[alert]; []; []; [alert]]) /\
    get_flag state (notified_key pt) = true.
Proof.
  intros H1 H2 H3 H4 Hsend alert.
  assert (Hlow : flt f_0_05 f_0_11 = true) by reflexivity.
  assert (Hhigh : fge f_0_12 f_0_11 = true) by reflexivity.
  eexists. unfold run_checks, check_step. cbn [check_world check_type].
  rewrite (check_price_alerts _ _ _ _ _ _ true H1 Hlow);
    [|apply initial_state_armed|apply Hsend; simpl; tauto].
  rewrite (check_price_suppressed _ _ _ _ _ _ H2 Hlow)
    by apply get_flag_insert.
  rewrite (check_price_recovers _ _ _ _ _ _ H3 Hhigh)
    by (rewrite get_flag_price; apply get_flag_insert).
  rewrite (check_price_alerts _ _ _ _ _ _ true H4 Hlow);
    [|apply get_flag_insert|apply Hsend; simpl; tauto].
  split; [reflexivity|apply get_flag_insert].
Qed.

Lemma hysteresis_two_alerts_witness :
  exists state,
    run_checks (fun _ => ELECTRICITY_TARIFF_URL) (fun _ => f_0_11)
      hysteresis_history (load_state None)
    = (Returns state,
       [ [{| msg_type := electricity; msg_price := f_0_05;
             msg_target := f_0_11; msg_url := ELECTRICITY_TARIFF_URL |}];
         []; [];
         [{| msg_type := electricity; msg_price := f_0_05;
             msg_target := f_0_11; msg_url := ELECTRICITY_TARIFF_URL |}] ]) /\
    get_flag state (notified_key electricity) = true.
Proof.
  apply (hysteresis_two_alerts electricity ELECTRICITY_TARIFF_URL
           (serving "0.05 €/kWh" (Returns true))
           (serving "0,05 €/kWh" (Returns true))
           (serving "0.12 €/kWh" (Returns true))
           (serving "0.05<!-- -->€/kWh" (Returns true)));
    try reflexivity.
  intros w msg [<-|[<-|[<-|[<-|[]]]]]; reflexivity.
Defined.

(* ===================================================================== *)
(** ** The matcher finds only what the pattern describes *)
(* ===================================================================== *)

Section MatcherSound.
Context {R : Type}.

Lemma star_match_sound k s (kont : str -> option R) x :
  star_match k s kont = Some x ->
  exists u s', s = u ++ s' /\ forallb (in_class k) u = true /\ kont s' = Some x.
Proof.
  induction s as [|c s IH]; simpl.
  - intros H. by exists [], [].
  - destruct (in_class k c) eqn:Hc; [|intros H; by exists [], (c :: s)].
    destruct (star_match k s kont) as [y|] eqn:Hrec.
    + intros [= ->]. destruct (IH eq_refl) as (u & s' & -> & Hu & Hk).
      exists (c :: u), s'. simpl. by rewrite Hc, Hu.
    + intros H. by exists [], (c :: s).
Qed.

Lemma rmatch_sound r : forall s g (kont : str -> option str -> option R) x,
  rmatch r s g kont = Some x ->
  exists u s' g', s = u ++ s' /\ matches r u g g' /\ kont s' g' = Some x.
Proof.
  induction r as [|k|k|k|r IH|r1 IH1 r2 IH2|r IH]; intros s g kont x; simpl.
  - intros H. exists [], s, g. split_and!; [done|constructor|done].
  - destruct s as [|c s]; [done|]. destruct (in_class k c) eqn:Hc; [|done].
    intros H. exists [c], s, g. split_and!; [done|by constructor|done].
  - intros H. apply star_match_sound in H as (u & s' & -> & Hu & Hk).
    exists u, s', g. split_and!; [done|by constructor|done].
  - destruct s as [|c s]; [done|]. destruct (in_class k c) eqn:Hc; [|done].
    intros H. apply star_match_sound in H as (u & s' & -> & Hu & Hk).
    exists (c :: u), s', g. split_and!; [done|by constructor|done].
  - destruct (rmatch r s g kont) as [y|] eqn:Hrec.
    + intros [= ->]. apply IH in Hrec as (u & s' & g' & -> & Hm & Hk).
      exists u, s', g'. split_and!; [done|by constructor|done].
    + intros H. exists [], s, g.
      split_and!; [done|apply matches_opt_skipped|done].
  - intros H. apply IH1 in H as (u1 & s1 & g1 & -> & Hm1 & H).
    apply IH2 in H as (u2 & s2 & g2 & -> & Hm2 & Hk).
    exists (u1 ++ u2), s2, g2. split_and!; [by rewrite app_assoc| |done].
    by econstructor.
  - intros H. apply IH in H as (u & s' & g' & -> & Hm & Hk).
    exists u, s', (Some u). split_and!; [done|by econstructor|].
    rewrite length_app, Nat.add_sub, take_app_length in Hk. done.
Qed.
End MatcherSound.

Lemma re_match_sound r s m :
  re_match r s = Some m ->
  exists u s' g, s = u ++ s' /\ matches r u None g /\ m = {| group1 := g |}.
Proof.
  unfold re_match. intros H.
  apply rmatch_sound in H as (u & s' & g & -> & Hm & [= <-]).
  by exists u, s', g.
Qed.

Lemma re_search_sound r s : forall m,
  re_search r s = Some m ->
  exists pre u s' g,
    s = pre ++ u ++ s' /\ matches r u None g /\ m = {| group1 := g |}.
Proof.
  induction s as [|c s IH]; intros m; simpl.
  - destruct (re_match r []) as [m'|] eqn:Hm; [|done].
    intros [= ->]. apply re_match_sound in Hm as (u & s' & g & Hs & Hu & ->).
    by exists [], u, s', g.
  - destruct (re_match r (c :: s)) as [m'|] eqn:Hm.
    + intros [= ->]. apply re_match_sound in Hm as (u & s' & g & Hs & Hu & ->).
      by exists [], u, s', g.
    + intros H. apply IH in H as (pre & u & s' & g & -> & Hu & ->).
      by exists (c :: pre), u, s', g.
Qed.

(** A pattern without a group leaves group 1 as it was. *)
Lemma matches_without_group r u g g' :
  matches r u g g' -> has_group r = false -> g' = g.
Proof.
  induction 1; simpl; intros Hg; try done.
  - by apply IHmatches.
  - apply orb_false_iff in Hg as [Hg1 Hg2].
    rewrite (IHmatches2 Hg2). by apply IHmatches1.
Qed.

(** After a match, group 1 holds a text matched by the group's body. *)
Lemma matches_group_body r u g g' : forall b,
  matches r u g g' -> group_body r = Some b ->
  exists n g0 g1, g' = Some n /\ matches b n g0 g1.
Proof.
  intros b Hm. revert b.
  induction Hm as [g|k c g Hc|k u g Hu|k c u g Hc Hu|r u g g' Hm IH|r g
                   |r1 r2 u1 u2 g g1 g2 Hm1 IH1 Hm2 IH2|r u g g' Hm IH];
    simpl; intros b Hb; try done.
  - destruct (group_body r2) as [b2|] eqn:Hb2.
    + injection Hb as ->. by apply IH2.
    + destruct (has_group r2) eqn:Hg2; [done|].
      rewrite (matches_without_group _ _ _ _ Hm2 Hg2). by apply IH1.
  - injection Hb as ->. by exists u, g, g'.
Qed.

Lemma separator_class (c : char) :
  in_class (AnyOf (txt ".,")) c = ((c =? 44) || (c =? 46))%N.
Proof.
  change (txt ".,") with [46; 44]%N. unfold in_class, mem_char. simpl.
  rewrite orb_false_r. apply orb_comm.
Qed.

(** What [\d+[.,]\d+] matches is a numeral. *)
Lemma matches_numeral_body n g g' :
  matches numeral_body n g g' ->
  exists ip sep fp, n = ip ++ sep :: fp /\ is_numeral ip sep fp = true.
Proof.
  unfold numeral_body. intros H.
  inversion H as [| | | | | |r1 r2 u1 u23 g0 g1 g2 H1 H23|]; subst.
  inversion H23 as [| | | | | |r1 r2 u2 u3 g0 g3 g4 H2 H3|]; subst.
  inversion H1 as [| | |k c1 ip g0 Hc1 Hip| | | |]; subst.
  inversion H2 as [|k sep g0 Hsep| | | | | |]; subst.
  inversion H3 as [| | |k c3 fp g0 Hc3 Hfp| | | |]; subst.
  exists (c1 :: ip), sep, (c3 :: fp). split; [done|].
  unfold is_numeral. change (in_class Digit) with is_digit in *.
  rewrite separator_class in Hsep.
  cbn [nonempty forallb]. rewrite Hc1, Hip, Hc3, Hfp, Hsep. done.
Qed.

(* ===================================================================== *)
(** ** float() on a matched numeral *)
(* ===================================================================== *)

Lemma span_digits_app ds r :
  forallb is_digit ds = true -> digits_end r = true ->
  span_digits (ds ++ r) = (ds, r).
Proof.
  intros Hds Hr. induction ds as [|d ds IH]; simpl in *.
  - destruct r as [|c r]; [done|]. simpl in *.
    by destruct (is_digit c).
  - apply andb_true_iff in Hds as [Hd Hds]. by rewrite Hd, IH.
Qed.

Lemma replace_comma_digits ds :
  forallb is_digit ds = true -> replace_comma ds = ds.
Proof.
  induction ds as [|d ds IH]; simpl; [done|].
  intros [Hd Hds]%andb_true_iff. rewrite (IH Hds). f_equal.
  unfold comma_to_dot. destruct (N.eqb_spec d 44) as [->|]; done.
Qed.

Lemma is_numeral_parts ip sep fp :
  is_numeral ip sep fp = true ->
  nonempty ip = true /\ forallb is_digit ip = true /\
  (sep = 44%N \/ sep = 46%N) /\
  nonempty fp = true /\ forallb is_digit fp = true.
Proof.
  unfold is_numeral. rewrite !andb_true_iff, orb_true_iff, !N.eqb_eq. tauto.
Qed.

Lemma py_float_numeral ip sep fp :
  is_numeral ip sep fp = true ->
  py_float (replace_comma (ip ++ sep :: fp)) = Some (numeral_value ip fp).
Proof.
  intros (Hip1 & Hip & Hsep & Hfp1 & Hfp)%is_numeral_parts.
  unfold replace_comma. rewrite map_app. simpl.
  fold (replace_comma ip) (replace_comma fp).
  rewrite (replace_comma_digits _ Hip), (replace_comma_digits _ Hfp).
  assert (Hdot : comma_to_dot sep = 46%N) by (by destruct Hsep as [->| ->]).
  rewrite Hdot. unfold py_float.
  rewrite (span_digits_app ip (46%N :: fp) Hip eq_refl). simpl.
  rewrite <- (app_nil_r fp) at 1.
  rewrite (span_digits_app fp [] Hfp eq_refl).
  by rewrite Hip1.
Qed.

(* ===================================================================== *)
(** ** The pattern lists *)
(* ===================================================================== *)

(** The patterns of the embedding print back to the source literals. *)
Lemma gas_patterns_source :
  List.map show gas_patterns = List.map txt
    [ "(\d+[.,]\d+)(?:\s*<!--[^>]*-->)?\s*€\s*/?\s*s?mc";
      "€\s*(\d+[.,]\d+)(?:\s*<!--[^>]*-->)?\s*/?\s*s?mc";
      "(\d+[.,]\d+)(?:\s*<!--[^>]*-->)?\s*€/smc";
      "(\d+[.,]\d+)(?:\s*<!--[^>]*-->)?\s*€/mc";
      "(\d+[.,]\d+)\s*€\s*/?\s*s?mc";
      "€\s*(\d+[.,]\d+)\s*/?\s*s?mc";
      "(\d+[.,]\d+)\s*€/smc";
      "(\d+[.,]\d+)\s*€/mc" ]%string.
Proof. reflexivity. Qed.

Lemma electricity_patterns_source :
  List.map show electricity_patterns = List.map txt
    [ "(\d+[.,]\d+)(?:\s*<!--[^>]*-->)?\s*€\s*/?\s*k? ?wh";
      "€\s*(\d+[.,]\d+)(?:\s*<!--[^>]*-->)?\s*/?\s*k? ?wh";
      "(\d+[.,]\d+)(?:\s*<!--[^>]*-->)?\s*€/kWh";
      "(\d+[.,]\d+)(?:\s*<!--[^>]*-->)?\s*€/kW";
      "(\d+[.,]\d+)\s*€\s*/?\s*k? ?wh";
      "€\s*(\d+[.,]\d+)\s*/?\s*k? ?wh";
      "(\d+[.,]\d+)\s*€/kWh";
      "(\d+[.,]\d+)\s*€/kW" ]%string.
Proof. reflexivity. Qed.

Lemma fallback_pattern_source :
  show fallback_pattern = txt "(\d+[.,]\d+)\s*€".
Proof. reflexivity. Qed.

(** In every pattern, group 1 is [\d+[.,]\d+] and always takes part. *)
Lemma patterns_grouped pt :
  Forall (fun p => group_body p = Some numeral_body) (patterns_of pt).
Proof. destruct pt; repeat constructor. Qed.

Lemma fallback_grouped : group_body fallback_pattern = Some numeral_body.
Proof. reflexivity. Qed.

(** A match of such a pattern carries a numeral, which [float()] reads. *)
Lemma search_finds_numeral p s m :
  group_body p = Some numeral_body ->
  re_search p s = Some m ->
  exists ip sep fp,
    group1 m = Some (ip ++ sep :: fp) /\ is_numeral ip sep fp = true.
Proof.
  intros Hp Hs.
  apply re_search_sound in Hs as (pre & u & s' & g & _ & Hm & ->).
  destruct (matches_group_body _ _ _ _ _ Hm Hp) as (n & g0 & g1 & -> & Hn).
  apply matches_numeral_body in Hn as (ip & sep & fp & -> & Hnum).
  by exists ip, sep, fp.
Qed.

Lemma parse_group_numeral p s m :
  group_body p = Some numeral_body ->
  re_search p s = Some m ->
  exists g x, group1 m = Some g /\ py_float (replace_comma g) = Some x /\
              parse_group m = Returns (Some x).
Proof.
  intros Hp Hs.
  destruct (search_finds_numeral _ _ _ Hp Hs) as (ip & sep & fp & Hg & Hnum).
  exists (ip ++ sep :: fp), (numeral_value ip fp).
  unfold parse_group. rewrite Hg, (py_float_numeral _ _ _ Hnum). done.
Qed.

(* ===================================================================== *)
(** ** The pattern loop *)
(* ===================================================================== *)

Lemma scan_patterns_unmatched ps lower :
  Forall (unmatched lower) ps -> scan_patterns ps lower = Returns None.
Proof.
  induction 1 as [|p ps Hp _ IH]; simpl; [done|]. by rewrite Hp.
Qed.

Lemma scan_patterns_first ps1 p ps2 lower m :
  Forall (unmatched lower) ps1 ->
  re_search p lower = Some m ->
  scan_patterns (ps1 ++ p :: ps2) lower =
    match parse_group m with
    | Raises => Raises
    | Returns (Some x) => Returns (Some x)
    | Returns None => scan_patterns ps2 lower
    end.
Proof.
  induction 1 as [|q ps1 Hq _ IH]; simpl; intros Hm.
  - by rewrite Hm.
  - rewrite Hq. by apply IH.
Qed.







(** The branch is live in the loop itself: a group that is a lone
    separator is rejected by [float], and the next pattern decides. *)
Lemma scan_patterns_skips_rejected_numeral :
  let lone_separator := Group (One (AnyOf (txt ".,"))) in
  numeric_group lone_separator = true /\
  parsed (txt "0,5 €, 1.5 €") lone_separator = None /\
  re_search lone_separator (txt "0,5 €, 1.5 €")
    = Some {| group1 := Some (txt ",") |} /\
  scan_patterns [lone_separator; fallback_pattern] (txt "0,5 €, 1.5 €")
    = Returns (py_float (txt "0.5")).
Proof. by vm_compute. Qed.



(* ===================================================================== *)
(** ** Greedy matching of a leading numeral *)
(* ===================================================================== *)

Section Greedy.
Context {R : Type}.

(** The longest run is tried first: if the continuation accepts after
    it, that is the answer. *)
Lemma star_match_greedy k ds s (kont : str -> option R) x :
  forallb (in_class k) ds = true ->
  star_match k s kont = Some x ->
  star_match k (ds ++ s) kont = Some x.
Proof.
  intros Hds Hs. induction ds as [|d ds IH]; simpl in *; [done|].
  apply andb_true_iff in Hds as [Hd Hds]. by rewrite Hd, (IH Hds).
Qed.

Lemma star_match_digits_end s (kont : str -> option R) :
  digits_end s = true -> star_match Digit s kont = kont s.
Proof.
  destruct s as [|c s]; simpl; [done|]. by intros ->%negb_true_iff.
Qed.

Lemma rmatch_numeral_body ip sep fp s g (kont : str -> option str -> option R) x :
  is_numeral ip sep fp = true ->
  digits_end s = true ->
  kont s g = Some x ->
  rmatch numeral_body (ip ++ sep :: fp ++ s) g kont = Some x.
Proof.
  intros (Hip1 & Hip & Hsep & Hfp1 & Hfp)%is_numeral_parts Hend Hk.
  destruct ip as [|d ip]; [done|]. destruct fp as [|d' fp]; [done|].
  simpl in Hip, Hfp.
  apply andb_true_iff in Hip as [Hd Hip], Hfp as [Hd' Hfp].
  unfold numeral_body.
  cbn [rmatch app]. change (in_class Digit d) with (is_digit d). rewrite Hd.
  apply star_match_greedy; [done|].
  rewrite star_match_digits_end by (by destruct Hsep as [->| ->]).
  rewrite separator_class.
  replace ((sep =? 44) || (sep =? 46))%N with true
    by (by destruct Hsep as [->| ->]).
  change (in_class Digit d') with (is_digit d'). rewrite Hd'.
  apply star_match_greedy; [done|].
  by rewrite (star_match_digits_end _ _ Hend).
Qed.

Lemma take_prefix (u s : str) : take (length (u ++ s) - length s) (u ++ s) = u.
Proof. by rewrite length_app, Nat.add_sub, take_app_length. Qed.

Lemma rmatch_numeral ip sep fp s g (kont : str -> option str -> option R) x :
  is_numeral ip sep fp = true ->
  digits_end s = true ->
  kont s (Some (ip ++ sep :: fp)) = Some x ->
  rmatch numeral (ip ++ sep :: fp ++ s) g kont = Some x.
Proof.
  intros Hnum Hend Hk. unfold numeral. cbn [rmatch].
  apply rmatch_numeral_body; [done..|].
  change (ip ++ sep :: fp ++ s) with (ip ++ (sep :: fp) ++ s).
  by rewrite (app_assoc ip), take_prefix.
Qed.
End Greedy.

Lemma re_search_unfold r s :
  re_search r s =
    match re_match r s with
    | Some m => Some m
    | None => match s with [] => None | _ :: s' => re_search r s' end
    end.
Proof. by destruct s. Qed.

Lemma search_leading_numeral rest ip sep fp tail :
  is_numeral ip sep fp = true ->
  digits_end tail = true ->
  rmatch rest tail (Some (ip ++ sep :: fp)) (fun _ g => Some {| group1 := g |})
    = Some {| group1 := Some (ip ++ sep :: fp) |} ->
  re_search (numeral ⋅ rest) (ip ++ sep :: fp ++ tail)
    = Some {| group1 := Some (ip ++ sep :: fp) |}.
Proof.
  intros Hnum Hend Hrest.
  assert (Hm : re_match (numeral ⋅ rest) (ip ++ sep :: fp ++ tail)
               = Some {| group1 := Some (ip ++ sep :: fp) |}).
  { unfold re_match. cbn [rmatch]. by apply rmatch_numeral. }
  by rewrite re_search_unfold, Hm.
Qed.

Lemma py_lower_numeral ip sep fp tail :
  is_numeral ip sep fp = true ->
  py_lower (ip ++ sep :: fp ++ tail) = ip ++ sep :: fp ++ py_lower tail.
Proof.
  intros (_ & Hip & Hsep & _ & Hfp)%is_numeral_parts.
  assert (Hdigits : forall ds, forallb is_digit ds = true -> py_lower ds = ds).
  { induction ds as [|d ds IH]; simpl; [done|].
    intros [Hd Hds]%andb_true_iff. rewrite (IH Hds). f_equal.
    unfold lower_char, is_digit in *.
    destruct (65 <=? d)%N eqn:H65; [|done].
    apply andb_true_iff in Hd as [_ H57].
    apply N.leb_le in H65, H57. lia. }
  unfold py_lower in *. rewrite map_app. simpl. rewrite map_app.
  rewrite (Hdigits _ Hip), (Hdigits _ Hfp).
  by destruct Hsep as [->| ->].
Qed.

(** A text that, lowered, is a numeral followed by a tail which the rest
    of the first pattern of the kind matches, yields the numeral's value. *)
Lemma extract_leading_numeral pt rest ps text ip sep fp tail :
  patterns_of pt = (numeral ⋅ rest)%re :: ps ->
  is_numeral ip sep fp = true ->
  py_lower text = ip ++ sep :: fp ++ tail ->
  digits_end tail = true ->
  rmatch rest tail (Some (ip ++ sep :: fp)) (fun _ g => Some {| group1 := g |})
    = Some {| group1 := Some (ip ++ sep :: fp) |} ->
  extract_price_from_text text pt = Returns (Some (numeral_value ip fp)).
Proof.
  intros Hpt Hnum Hlower Hend Hrest.
  unfold extract_price_from_text. cbv zeta. rewrite Hpt, Hlower.
  cbn [scan_patterns].
  rewrite (search_leading_numeral _ _ _ _ _ Hnum Hend Hrest).
  unfold parse_group. cbn [group1].
  by rewrite (py_float_numeral _ _ _ Hnum).
Qed.

(* ===================================================================== *)
(** ** Comma and period are interchangeable *)
(* ===================================================================== *)

Lemma in_class_blind k c1 c2 :
  blind_class k = true ->
  comma_to_dot c1 = comma_to_dot c2 ->
  in_class k c1 = in_class k c2.
Proof.
  intros Hk%eqb_prop. unfold comma_to_dot.
  destruct (N.eqb_spec c1 44) as [->|H1], (N.eqb_spec c2 44) as [->|H2];
    intros Heq; subst; congruence.
Qed.

Lemma same_text_length s1 s2 : same_text s1 s2 -> length s1 = length s2.
Proof.
  unfold same_text, replace_comma. intros H.
  apply (f_equal (@length _)) in H. by rewrite !length_map in H.
Qed.

Lemma same_text_cons c1 c2 s1 s2 :
  same_text (c1 :: s1) (c2 :: s2) ->
  comma_to_dot c1 = comma_to_dot c2 /\ same_text s1 s2.
Proof. unfold same_text. simpl. by intros [= ? ?]. Qed.

Lemma same_text_take n s1 s2 :
  same_text s1 s2 -> same_text (take n s1) (take n s2).
Proof.
  unfold same_text, replace_comma. intros H.
  by rewrite <- !firstn_map, H.
Qed.

Lemma star_match_blind k :
  blind_class k = true ->
  forall s1 s2 (k1 k2 : str -> option Match),
    same_text s1 s2 ->
    (forall t1 t2, same_text t1 t2 -> same_result (k1 t1) (k2 t2)) ->
    same_result (star_match k s1 k1) (star_match k s2 k2).
Proof.
  intros Hk. induction s1 as [|c1 s1 IH]; intros [|c2 s2] k1 k2 Hs Hkont;
    try (apply same_text_length in Hs; discriminate Hs).
  - by apply Hkont.
  - destruct (same_text_cons _ _ _ _ Hs) as [Hc Hs']. simpl.
    rewrite (in_class_blind _ _ _ Hk Hc).
    destruct (in_class k c2); [|by apply Hkont].
    specialize (IH s2 k1 k2 Hs' Hkont).
    destruct (star_match k s1 k1), (star_match k s2 k2); try done.
    by apply Hkont.
Qed.

Lemma rmatch_blind r :
  blind r = true ->
  forall s1 s2 g1 g2 (k1 k2 : str -> option str -> option Match),
    same_text s1 s2 -> same_group g1 g2 ->
    (forall t1 t2 h1 h2,
       same_text t1 t2 -> same_group h1 h2 -> same_result (k1 t1 h1) (k2 t2 h2)) ->
    same_result (rmatch r s1 g1 k1) (rmatch r s2 g2 k2).
Proof.
  induction r as [|k|k|k|r IH|r1 IH1 r2 IH2|r IH]; simpl; intros Hr;
    intros s1 s2 g1 g2 k1 k2 Hs Hg Hkont.
  - by apply Hkont.
  - destruct s1 as [|c1 s1], s2 as [|c2 s2];
      try (apply same_text_length in Hs; discriminate Hs); [done|].
    destruct (same_text_cons _ _ _ _ Hs) as [Hc Hs'].
    rewrite (in_class_blind _ _ _ Hr Hc).
    destruct (in_class k c2); [|done]. by apply Hkont.
  - apply star_match_blind; [done..|]. intros t1 t2 Ht. by apply Hkont.
  - destruct s1 as [|c1 s1], s2 as [|c2 s2];
      try (apply same_text_length in Hs; discriminate Hs); [done|].
    destruct (same_text_cons _ _ _ _ Hs) as [Hc Hs'].
    rewrite (in_class_blind _ _ _ Hr Hc).
    destruct (in_class k c2); [|done].
    apply star_match_blind; [done..|]. intros t1 t2 Ht. by apply Hkont.
  - specialize (IH Hr s1 s2 g1 g2 k1 k2 Hs Hg Hkont).
    destruct (rmatch r s1 g1 k1), (rmatch r s2 g2 k2); try done.
    by apply Hkont.
  - apply andb_true_iff in Hr as [Hr1 Hr2].
    apply IH1; [done..|]. intros t1 t2 h1 h2 Ht Hh. by apply IH2.
  - apply IH; [done..|]. intros t1 t2 _ _ Ht _. apply Hkont; [done|].
    simpl. rewrite (same_text_length _ _ Hs), (same_text_length _ _ Ht).
    by apply same_text_take.
Qed.

Lemma re_search_blind r :
  blind r = true ->
  forall s1 s2, same_text s1 s2 -> same_result (re_search r s1) (re_search r s2).
Proof.
  intros Hr.
  assert (Hmatch : forall s1 s2, same_text s1 s2 ->
             same_result (re_match r s1) (re_match r s2)).
  { intros s1 s2 Hs. unfold re_match. by apply rmatch_blind. }
  induction s1 as [|c1 s1 IH]; intros [|c2 s2] Hs;
    try (apply same_text_length in Hs; discriminate Hs).
  - specialize (Hmatch _ _ Hs). simpl.
    by destruct (re_match r []).
  - specialize (Hmatch _ _ Hs). simpl.
    destruct (re_match r (c1 :: s1)), (re_match r (c2 :: s2)); try done.
    apply IH. by destruct (same_text_cons _ _ _ _ Hs).
Qed.

Lemma parse_group_blind m1 m2 :
  same_group (group1 m1) (group1 m2) -> parse_group m1 = parse_group m2.
Proof.
  unfold parse_group, same_group, same_text.
  destruct (group1 m1), (group1 m2); try done. by intros ->.
Qed.

Lemma scan_patterns_blind ps s1 s2 :
  forallb blind ps = true -> same_text s1 s2 ->
  scan_patterns ps s1 = scan_patterns ps s2.
Proof.
  intros Hps Hs. induction ps as [|p ps IH]; simpl in *; [done|].
  apply andb_true_iff in Hps as [Hp Hps].
  pose proof (re_search_blind p Hp s1 s2 Hs) as Hsearch.
  destruct (re_search p s1) as [m1|], (re_search p s2) as [m2|]; try done.
  - rewrite (parse_group_blind _ _ Hsearch), (IH Hps). done.
  - by apply IH.
Qed.

Lemma py_lower_blind s1 s2 :
  same_text s1 s2 -> same_text (py_lower s1) (py_lower s2).
Proof.
  revert s2. induction s1 as [|c1 s1 IH]; intros [|c2 s2] Hs;
    try (apply same_text_length in Hs; discriminate Hs); [done|].
  destruct (same_text_cons _ _ _ _ Hs) as [Hc Hs'].
  unfold same_text in *. simpl. rewrite (IH _ Hs'). f_equal.
  unfold comma_to_dot in Hc.
  destruct (N.eqb_spec c1 44) as [->|H1], (N.eqb_spec c2 44) as [->|H2];
    subst; done.
Qed.

Lemma patterns_blind pt : forallb blind (patterns_of pt) = true.
Proof. by destruct pt. Qed.

(** Two texts that differ only in [,] against [.] extract alike. *)
Lemma extract_blind text1 text2 pt :
  same_text text1 text2 ->
  extract_price_from_text text1 pt = extract_price_from_text text2 pt.
Proof.
  intros Hs%py_lower_blind. unfold extract_price_from_text. cbv zeta.
  rewrite (scan_patterns_blind _ _ _ (patterns_blind pt) Hs).
  destruct (scan_patterns _ _) as [[x|]|]; try done.
  pose proof (re_search_blind fallback_pattern eq_refl _ _ Hs) as Hsearch.
  destruct (re_search fallback_pattern (py_lower text1)) as [m1|],
           (re_search fallback_pattern (py_lower text2)) as [m2|]; try done.
  by rewrite (parse_group_blind _ _ Hsearch).
Qed.

(** C6: a text with [,] and the same text with [.] at any one place
    extract alike; a numeral followed by a blank and the unit of the kind
    extracts to the value of the numeral, whichever separator it uses;
    "0,1067" and "0.1067" before the unit both give 0.1067. *)
Theorem separator_is_normalized :
  (forall pt pre ip fp post,
     extract_price_from_text (pre ++ ip ++ 44%N :: fp ++ post) pt =
     extract_price_from_text (pre ++ ip ++ 46%N :: fp ++ post) pt) /\
  (forall pt ip sep fp,
     is_numeral ip sep fp = true ->
     extract_price_from_text (ip ++ sep :: fp ++ txt " " ++ unit_label pt) pt
       = Returns (Some (numeral_value ip fp))) /\
  extract_price_from_text (txt "0,1067 €/kWh") electricity = Returns (Some f_0_1067) /\
  extract_price_from_text (txt "0.1067 €/kWh") electricity = Returns (Some f_0_1067) /\
  extract_price_from_text (txt "0,1067 €/Smc") gas = Returns (Some f_0_1067) /\
  extract_price_from_text (txt "0.1067 €/Smc") gas = Returns (Some f_0_1067).
Proof.
  split_and!.
  - intros pt pre ip fp post. apply extract_blind.
    unfold same_text, replace_comma. rewrite !map_app. simpl.
    by rewrite !map_app.
  - intros pt ip sep fp Hnum.
    destruct pt;
      eapply (extract_leading_numeral _ _ _ _ ip sep fp);
      first [exact Hnum|by apply py_lower_numeral|reflexivity].
  - by vm_compute.
  - by vm_compute.
  - by vm_compute.
  - by vm_compute.
Qed.

Lemma separator_is_normalized_witness :
  extract_price_from_text
    (txt "12" ++ 44%N :: txt "50" ++ txt " " ++ unit_label gas) gas
  = Returns (Some (numeral_value (txt "12") (txt "50"))).
Proof.
  destruct separator_is_normalized as (_ & Hnum & _).
  apply (Hnum gas (txt "12") 44%N (txt "50")). reflexivity.
Defined.

(* ===================================================================== *)
(** ** A comment between the numeral and the unit *)
(* ===================================================================== *)

(** The unit abbreviations in any letter case. *)
Lemma comment_before_unit pt ip sep fp u :
  is_numeral ip sep fp = true ->
  match pt with
  | electricity => py_lower u = txt "kwh"
  | gas => py_lower u = txt "smc" \/ py_lower u = txt "mc"
  end ->
  extract_price_from_text (ip ++ sep :: fp ++ txt "<!-- -->€/" ++ u) pt
    = Returns (Some (numeral_value ip fp)).
Proof.
  intros Hnum Hu.
  assert (Hlower : forall v,
             py_lower u = v ->
             py_lower (ip ++ sep :: fp ++ txt "<!-- -->€/" ++ u)
             = ip ++ sep :: fp ++ txt "<!-- -->€/" ++ v).
  { intros v <-. rewrite (py_lower_numeral _ _ _ _ Hnum).
    unfold py_lower. by rewrite map_app. }
  destruct pt; [|destruct Hu as [Hu|Hu]];
    eapply (extract_leading_numeral _ _ _ _ ip sep fp);
    first [exact Hnum|by apply Hlower|reflexivity].
Qed.

Lemma requires_sound c r u g g' :
  matches r u g g' -> requires c r = true -> In c u.
Proof.
  induction 1 as [g|k a g Ha|k u g Hu|k a u g Ha Hu|r u g g' Hm IH|r g
                  |r1 r2 u1 u2 g g1 g2 Hm1 IH1 Hm2 IH2|r u g g' Hm IH];
    simpl; try done.
  - destruct k; try done. simpl in Ha.
    intros Hc. apply N.eqb_eq in Ha, Hc. subst. by left.
  - destruct k; try done. simpl in Ha.
    intros Hc. apply N.eqb_eq in Ha, Hc. subst. by left.
  - intros [H1|H2]%orb_true_iff; apply in_or_app; auto.
Qed.

Lemma lowered_has_no_capital text c :
  (65 <= c <= 90)%N -> ~ In c (py_lower text).
Proof.
  intros Hc (x & Hx & _)%in_map_iff. unfold lower_char in Hx.
  destruct (65 <=? x)%N eqn:H65, (x <=? 90)%N eqn:H90; simpl in Hx;
    try apply N.leb_le in H65; try apply N.leb_le in H90;
    try apply N.leb_gt in H65; try apply N.leb_gt in H90; lia.
Qed.

(** A pattern that needs a character matches no text without it. *)
Lemma missing_char_unmatched s c p :
  requires c p = true -> ~ In c s -> unmatched s p.
Proof.
  intros Hp Hc. unfold unmatched.
  destruct (re_search p s) as [m|] eqn:Hs; [|done].
  apply re_search_sound in Hs as (pre & u & s' & g & -> & Hm & _).
  destruct Hc. apply in_or_app. right. apply in_or_app. left.
  by apply (requires_sound _ _ _ _ _ Hm).
Qed.

(** A pattern that needs a capital letter matches no lowered text. *)
Lemma capital_pattern_unmatched text c p :
  (65 <= c <= 90)%N -> requires c p = true -> unmatched (py_lower text) p.
Proof.
  intros Hc Hp. apply (missing_char_unmatched _ c); [done|].
  by apply lowered_has_no_capital.
Qed.

(** *** The fallback pattern needs a digit or a blank before the euro sign *)

Lemma priced_cons c d s :
  priced (c :: d :: s) =
  ((is_digit c || is_space c) && (d =? 8364)%N) || priced (d :: s).
Proof. reflexivity. Qed.

Lemma priced_app_r a b : priced b = true -> priced (a ++ b) = true.
Proof.
  intros Hb. induction a as [|c a IH]; [done|].
  destruct (a ++ b) as [|d s] eqn:Hab; [by destruct a, b|].
  simpl app. rewrite Hab, priced_cons, IH. apply orb_true_r.
Qed.

Lemma priced_app_l a b : priced a = true -> priced (a ++ b) = true.
Proof.
  induction a as [|c a IH]; [done|].
  destruct a as [|d a]; [done|].
  change ((c :: d :: a) ++ b) with (c :: d :: (a ++ b)).
  rewrite !priced_cons. intros [H|H]%orb_true_iff; [by rewrite H|].
  change (d :: a ++ b) with ((d :: a) ++ b).
  rewrite (IH H). apply orb_true_r.
Qed.

Lemma priced_end v c :
  is_digit c || is_space c = true -> priced (v ++ [c; 8364%N]) = true.
Proof. intros Hc. apply priced_app_r. simpl. by rewrite Hc. Qed.

Lemma last_of_run (P : N -> bool) c u :
  P c = true -> forallb P u = true ->
  exists v d, c :: u = v ++ [d] /\ P d = true.
Proof.
  revert c. induction u as [|e u IH]; intros c Hc Hu.
  - by exists [], c.
  - simpl in Hu. apply andb_true_iff in Hu as [He Hu].
    destruct (IH e He Hu) as (v & d & -> & Hd). by exists (c :: v), d.
Qed.

Lemma matches_fallback_priced u g g' :
  matches fallback_pattern u g g' -> priced u = true.
Proof.
  change fallback_pattern
    with (Seq (Group numeral_body) (Seq (Star Space) (One (Lit 8364%N)))).
  intros H.
  inversion H as [| | | | | |? ? n u23 ? ? ? Hn H23|]; subst; clear H.
  inversion H23 as [| | | | | |? ? sp e ? ? ? Hsp He|]; subst; clear H23.
  inversion Hn as [| | | | | | |? ? ? ? Hbody]; subst; clear Hn.
  inversion Hsp as [| |? ? ? Hblank| | | | |]; subst; clear Hsp.
  inversion He as [|? c ? Hc| | | | | |]; subst; clear He.
  cbn [in_class] in Hc, Hblank. apply N.eqb_eq in Hc. subst c.
  apply matches_numeral_body in Hbody as (ip & sep & fp & -> & Hnum).
  apply is_numeral_parts in Hnum as (_ & _ & _ & Hfp1 & Hfp).
  destruct sp as [|b sp].
  - destruct fp as [|d fp]; [done|]. cbn [forallb] in Hfp.
    apply andb_true_iff in Hfp as [Hd Hfp].
    destruct (last_of_run is_digit d fp Hd Hfp) as (v & d' & Hv & Hd').
    rewrite Hv. cbn [app].
    replace ((ip ++ sep :: v ++ [d']) ++ [8364%N])
      with ((ip ++ sep :: v) ++ [d'; 8364%N]).
    + apply priced_end. by rewrite Hd'.
    + rewrite <- !app_assoc. cbn [app]. by rewrite <- app_assoc.
  - cbn [forallb] in Hblank. apply andb_true_iff in Hblank as [Hb Hsp'].
    destruct (last_of_run is_space b sp Hb Hsp') as (v & b' & Hv & Hb').
    rewrite Hv.
    replace ((ip ++ sep :: fp) ++ (v ++ [b']) ++ [8364%N])
      with (((ip ++ sep :: fp) ++ v) ++ [b'; 8364%N]).
    + apply priced_end. by rewrite Hb', orb_true_r.
    + by rewrite <- !app_assoc.
Qed.

Lemma unpriced_unmatched s : priced s = false -> unmatched s fallback_pattern.
Proof.
  intros Hs. unfold unmatched.
  destruct (re_search fallback_pattern s) as [m|] eqn:Hm; [|done].
  apply re_search_sound in Hm as (pre & u & s' & g & -> & Hu & _).
  apply matches_fallback_priced in Hu.
  by rewrite (priced_app_r pre _ (priced_app_l _ s' Hu)) in Hs.
Qed.

(** A run of digits and separators before [tail] adds no priced place
    when [tail] does not begin with the euro sign. *)
Lemma priced_after_numeral a tail :
  forallb (fun c => negb (c =? 8364)%N) a = true ->
  match tail with c :: _ => (c =? 8364)%N = false | [] => True end ->
  priced (a ++ tail) = priced tail.
Proof.
  intros Ha Htail. induction a as [|c a IH]; [done|].
  simpl in Ha. apply andb_true_iff in Ha as [_ Ha]. simpl.
  rewrite (IH Ha).
  destruct a as [|d a]; simpl.
  - destruct tail as [|e tail]; [done|]. by rewrite Htail, andb_false_r.
  - simpl in Ha. apply andb_true_iff in Ha as [Hd _].
    apply negb_true_iff in Hd. by rewrite Hd, andb_false_r.
Qed.

(** With the unit [kW], in any letter case, after the comment, nothing is
    extracted for electricity, whatever the numeral. *)
Lemma kw_unit_never_extracted ip sep fp u :
  is_numeral ip sep fp = true ->
  py_lower u = txt "kw" ->
  extract_price_from_text (ip ++ sep :: fp ++ txt "<!-- -->€/" ++ u) electricity
    = Returns None.
Proof.
  intros Hnum Hu.
  assert (Hlower : py_lower (ip ++ sep :: fp ++ txt "<!-- -->€/" ++ u)
                   = ip ++ sep :: fp ++ txt "<!-- -->€/kw").
  { rewrite (py_lower_numeral _ _ _ _ Hnum). unfold py_lower in *.
    by rewrite map_app, Hu. }
  apply is_numeral_parts in Hnum as (_ & Hip & Hsep & _ & Hfp).
  assert (Hrange : forall ds c, forallb is_digit ds = true -> In c ds ->
                                (48 <= c <= 57)%N).
  { intros ds c Hds Hc. rewrite forallb_forall in Hds.
    specialize (Hds c Hc). unfold is_digit in Hds.
    apply andb_true_iff in Hds as [H1 H2]. apply N.leb_le in H1, H2. lia. }
  assert (Hmissing : forall c, (c = 87 \/ c = 104)%N ->
             ~ In c (ip ++ sep :: fp ++ txt "<!-- -->€/kw")).
  { intros c Hc [Hin|[Hin|[Hin|Hin]%in_app_or]]%in_app_or.
    - apply (Hrange _ _ Hip) in Hin. lia.
    - lia.
    - apply (Hrange _ _ Hfp) in Hin. lia.
    - vm_compute in Hin. intuition lia. }
  assert (Hloop : scan_patterns electricity_patterns
                    (ip ++ sep :: fp ++ txt "<!-- -->€/kw") = Returns None).
  { apply scan_patterns_unmatched, List.Forall_forall. intros p Hp.
    assert (Hreq : requires 104%N p || requires 87%N p = true).
    { revert p Hp. by apply List.forallb_forall. }
    apply orb_true_iff in Hreq as [Hreq|Hreq].
    - apply (missing_char_unmatched _ 104%N); [done|]. apply Hmissing. lia.
    - apply (missing_char_unmatched _ 87%N); [done|]. apply Hmissing. lia. }
  assert (Hfallback : re_search fallback_pattern
                        (ip ++ sep :: fp ++ txt "<!-- -->€/kw") = None).
  { apply unpriced_unmatched.
    change (ip ++ sep :: fp ++ txt "<!-- -->€/kw")
      with (ip ++ (sep :: fp) ++ txt "<!-- -->€/kw").
    rewrite app_assoc, priced_after_numeral; [done| |done].
    apply List.forallb_forall. intros c Hc.
    apply negb_true_iff, N.eqb_neq.
    apply in_app_or in Hc as [Hc|[Hc|Hc]].
    - apply (Hrange _ _ Hip) in Hc. lia.
    - lia.
    - apply (Hrange _ _ Hfp) in Hc. lia. }
  unfold extract_price_from_text. cbv zeta. rewrite Hlower.
  cbn [patterns_of]. by rewrite Hloop, Hfallback.
Qed.

(** C9, where the code departs from it: the electricity patterns written
    with [kWh] and [kW] need a capital W, which the lowered text never
    has, so they match nothing; with the unit [kW] after the comment no
    other pattern applies and nothing is extracted. *)
Theorem kw_unit_is_not_extracted :
  List.map show (List.filter (requires 87%N) electricity_patterns)
    = List.map txt
        [ "(\d+[.,]\d+)(?:\s*<!--[^>]*-->)?\s*€/kWh";
          "(\d+[.,]\d+)(?:\s*<!--[^>]*-->)?\s*€/kW";
          "(\d+[.,]\d+)\s*€/kWh";
          "(\d+[.,]\d+)\s*€/kW" ]%string /\
  (forall text,
     Forall (unmatched (py_lower text))
       (List.filter (requires 87%N) electricity_patterns)) /\
  extract_price_from_text (txt "0.1067<!-- -->€/kW") electricity = Returns None /\
  extract_price_from_text (txt "0.1067<!-- -->€/kw") electricity = Returns None /\
  extract_price_from_text (txt "0.1067<!-- -->€/KW") electricity = Returns None.
Proof.
  split_and!.
  - by vm_compute.
  - intros text. apply List.Forall_forall. intros p [_ Hp]%filter_In.
    by apply (capital_pattern_unmatched text 87%N).
  - by vm_compute.
  - by vm_compute.
  - by vm_compute.
Qed.

(* ===================================================================== *)
(** ** What extraction returns *)
(* ===================================================================== *)

(** After a match, group 1 holds a part of the matched text, and that part
    is matched by the group's body. *)
Lemma matches_group_within r u g g' : forall b,
  matches r u g g' -> group_body r = Some b ->
  exists n g0 g1, g' = Some n /\ occurs_in n u /\ matches b n g0 g1.
Proof.
  intros b Hm. revert b.
  induction Hm as [g|k c g Hc|k u g Hu|k c u g Hc Hu|r u g g' Hm IH|r g
                   |r1 r2 u1 u2 g g1 g2 Hm1 IH1 Hm2 IH2|r u g g' Hm IH];
    simpl; intros b Hb; try done.
  - destruct (group_body r2) as [b2|] eqn:Hb2.
    + injection Hb as ->.
      destruct (IH2 _ eq_refl) as (n & g0 & g3 & -> & (pre & post & ->) & Hn).
      exists n, g0, g3. split_and!; [done| |done].
      exists (u1 ++ pre), post. by rewrite <- app_assoc.
    + destruct (has_group r2) eqn:Hg2; [done|].
      rewrite (matches_without_group _ _ _ _ Hm2 Hg2).
      destruct (IH1 _ Hb) as (n & g0 & g3 & -> & (pre & post & ->) & Hn).
      exists n, g0, g3. split_and!; [done| |done].
      exists pre, (post ++ u2). by rewrite <- !app_assoc.
  - injection Hb as ->. exists u, g, g'. split_and!; [done| |done].
    exists [], []. by rewrite app_nil_r.
Qed.

Lemma search_numeral_within p s m :
  group_body p = Some numeral_body ->
  re_search p s = Some m ->
  exists ip sep fp,
    group1 m = Some (ip ++ sep :: fp) /\ is_numeral ip sep fp = true /\
    occurs_in (ip ++ sep :: fp) s.
Proof.
  intros Hp Hs.
  apply re_search_sound in Hs as (pre & u & s' & g & -> & Hm & ->).
  destruct (matches_group_within _ _ _ _ _ Hm Hp)
    as (n & g0 & g1 & -> & (a & b & ->) & Hn).
  apply matches_numeral_body in Hn as (ip & sep & fp & -> & Hnum).
  exists ip, sep, fp. split_and!; [done..|].
  exists (pre ++ a), (b ++ s'). by rewrite <- !app_assoc.
Qed.

Lemma parse_group_within p s m x :
  group_body p = Some numeral_body ->
  re_search p s = Some m ->
  parse_group m = Returns (Some x) ->
  exists ip sep fp,
    is_numeral ip sep fp = true /\ occurs_in (ip ++ sep :: fp) s /\
    x = numeral_value ip fp.
Proof.
  intros Hp Hs Hx.
  destruct (search_numeral_within _ _ _ Hp Hs) as (ip & sep & fp & Hg & Hnum & Hin).
  exists ip, sep, fp. split_and!; [done..|].
  unfold parse_group in Hx. rewrite Hg, (py_float_numeral _ _ _ Hnum) in Hx.
  by injection Hx.
Qed.

Lemma scan_patterns_within ps lower x :
  Forall (fun p => group_body p = Some numeral_body) ps ->
  scan_patterns ps lower = Returns (Some x) ->
  exists ip sep fp,
    is_numeral ip sep fp = true /\ occurs_in (ip ++ sep :: fp) lower /\
    x = numeral_value ip fp.
Proof.
  induction 1 as [|p ps Hp _ IH]; simpl; [done|].
  destruct (re_search p lower) as [m|] eqn:Hm; [|done].
  destruct (parse_group m) as [[y|]|] eqn:Hparse; [|done..].
  intros [= ->]. by apply (parse_group_within p lower m).
Qed.

(** Lowering leaves digits and separators alone, and makes none. *)
Lemma lower_char_numeral x c :
  is_digit c = true \/ c = 46%N \/ c = 44%N -> lower_char x = c -> x = c.
Proof.
  intros Hc. unfold lower_char.
  destruct ((65 <=? x) && (x <=? 90))%N eqn:Hcap; [|done].
  apply andb_true_iff in Hcap as [H65 H90]. apply N.leb_le in H65, H90.
  intros <-. destruct Hc as [Hc|[Hc|Hc]]; [|lia..].
  unfold is_digit in Hc. apply andb_true_iff in Hc as [_ H57].
  apply N.leb_le in H57. lia.
Qed.

Lemma py_lower_numeral_inv s n :
  Forall (fun c => is_digit c = true \/ c = 46%N \/ c = 44%N) n ->
  py_lower s = n -> s = n.
Proof.
  intros Hn. revert s. induction Hn as [|c n Hc _ IH]; intros [|x s]; try done.
  cbn [py_lower List.map]. fold (py_lower s). intros [= Hx Hs].
  by rewrite (lower_char_numeral _ _ Hc Hx), (IH _ Hs).
Qed.

Lemma numeral_chars ip sep fp :
  is_numeral ip sep fp = true ->
  Forall (fun c => is_digit c = true \/ c = 46%N \/ c = 44%N) (ip ++ sep :: fp).
Proof.
  intros (_ & Hip & Hsep & _ & Hfp)%is_numeral_parts.
  apply Forall_app. split; [|constructor].
  - apply List.Forall_forall. intros c Hc. left.
    by apply (proj1 (forallb_forall _ _) Hip).
  - right. tauto.
  - apply List.Forall_forall. intros c Hc. left.
    by apply (proj1 (forallb_forall _ _) Hfp).
Qed.

Lemma occurs_in_lowered ip sep fp text :
  is_numeral ip sep fp = true ->
  occurs_in (ip ++ sep :: fp) (py_lower text) ->
  occurs_in (ip ++ sep :: fp) text.
Proof.
  intros Hnum (pre & post & Hlower). unfold py_lower in Hlower.
  apply List.map_eq_app in Hlower as (pre' & rest & -> & _ & Hrest).
  apply List.map_eq_app in Hrest as (n & post' & -> & Hn & _).
  apply (py_lower_numeral_inv _ _ (numeral_chars _ _ _ Hnum)) in Hn as ->.
  by exists pre', post'.
Qed.

(** X1: a price is never invented: what [extract_price_from_text] returns
    for a text of plain code points is the value of a numeral (digits,
    [.] or [,], digits) that stands in the text itself. *)
Theorem extracted_price_occurs text pt x :
  forallb plain text = true ->
  extract_price_from_text text pt = Returns (Some x) ->
  exists ip sep fp,
    is_numeral ip sep fp = true /\
    occurs_in (ip ++ sep :: fp) text /\
    x = numeral_value ip fp.
Proof.
  intros _ Hx.
  assert (Hlowered : exists ip sep fp,
    is_numeral ip sep fp = true /\
    occurs_in (ip ++ sep :: fp) (py_lower text) /\
    x = numeral_value ip fp).
  { revert Hx. unfold extract_price_from_text. cbv zeta.
    destruct (scan_patterns (patterns_of pt) (py_lower text))
      as [[y|]|] eqn:Hscan; [|..|done].
    - intros [= ->].
      by apply (scan_patterns_within _ _ _ (patterns_grouped pt) Hscan).
    - destruct (re_search fallback_pattern (py_lower text)) as [m|] eqn:Hm;
        [|done].
      destruct (parse_group m) as [[y|]|] eqn:Hparse; [|done..].
      intros [= ->]. by apply (parse_group_within fallback_pattern _ m). }
  destruct Hlowered as (ip & sep & fp & Hnum & Hocc & ->).
  exists ip, sep, fp. split_and!; [done| |done].
  by apply occurs_in_lowered.
Qed.

Lemma extracted_price_occurs_witness :
  exists ip sep fp,
    is_numeral ip sep fp = true /\
    occurs_in (ip ++ sep :: fp) (txt "Da 0,1067 €/kWh") /\
    f_0_1067 = numeral_value ip fp.
Proof.
  apply (extracted_price_occurs (txt "Da 0,1067 €/kWh") electricity f_0_1067);
    reflexivity.
Defined.

(** Every pattern of the program needs the euro sign. *)
Lemma patterns_need_euro pt :
  forallb (requires 8364%N) (fallback_pattern :: patterns_of pt) = true.
Proof. by destruct pt. Qed.

Lemma lowered_euro text : In 8364%N (py_lower text) -> In 8364%N text.
Proof.
  intros (x & Hx & Hin)%in_map_iff. unfold lower_char in Hx.
  destruct ((65 <=? x) && (x <=? 90))%N eqn:Hcap; [|by subst].
  apply andb_true_iff in Hcap as [_ H90]. apply N.leb_le in H90. lia.
Qed.

(** X2: from a text without the euro sign nothing is extracted, for
    either kind. *)
Theorem no_euro_no_price text pt :
  ~ In 8364%N text -> extract_price_from_text text pt = Returns None.
Proof.
  intros Heuro.
  assert (Hlower : ~ In 8364%N (py_lower text))
    by (intros H; by apply Heuro, lowered_euro).
  pose proof (patterns_need_euro pt) as Hneed. cbn [forallb] in Hneed.
  apply andb_true_iff in Hneed as [Hfallback Hneed].
  unfold extract_price_from_text. cbv zeta.
  rewrite scan_patterns_unmatched.
  - by rewrite (missing_char_unmatched _ _ _ Hfallback Hlower).
  - apply List.Forall_forall. intros p Hp.
    apply (missing_char_unmatched _ 8364%N); [|done].
    rewrite List.forallb_forall in Hneed. by apply Hneed.
Qed.

Lemma no_euro_no_price_witness :
  extract_price_from_text (txt "0,1067 EUR/kWh") electricity = Returns None.
Proof.
  apply (no_euro_no_price (txt "0,1067 EUR/kWh") electricity).
  vm_compute. intuition discriminate.
Defined.

(* ===================================================================== *)
(** ** The float of a numeral *)
(* ===================================================================== *)

Lemma iter_pos_invariant {A : Type} (f : A -> A) (P : A -> Prop) :
  (forall x, P x -> P (f x)) ->
  forall p x, P x -> P (SpecFloat.iter_pos f p x).
Proof.
  intros Hf. induction p as [p IH|p IH|]; simpl; intros x Hx; auto.
Qed.

Lemma shr_1_nonneg mrs : (0 <= shr_m mrs)%Z -> (0 <= shr_m (shr_1 mrs))%Z.
Proof.
  destruct mrs as [m r s]. simpl.
  destruct m as [|[p|p|]|p]; simpl; lia.
Qed.

Lemma shr_fexp_nonneg m e l :
  (0 <= m)%Z -> (0 <= shr_m (fst (shr_fexp prec emax m e l)))%Z.
Proof.
  intros Hm. unfold shr_fexp, shr.
  assert (Hstart : (0 <= shr_m (shr_record_of_loc m l))%Z)
    by (by destruct l as [|[]]).
  destruct (fexp prec emax (Zdigits2 m + e) - e)%Z as [|p|p]; simpl; try done.
  apply (iter_pos_invariant shr_1 (fun mrs => (0 <= shr_m mrs)%Z)); [|done].
  apply shr_1_nonneg.
Qed.

Lemma round_nearest_even_nonneg m l :
  (0 <= m)%Z -> (0 <= round_nearest_even m l)%Z.
Proof.
  intros Hm. unfold round_nearest_even.
  destruct l as [|[]]; try done; [destruct (Z.even m)|]; lia.
Qed.

Lemma binary_round_aux_nonneg m e l :
  (0 <= m)%Z -> nonneg_float (binary_round_aux prec emax false m e l) = true.
Proof.
  intros Hm. unfold binary_round_aux.
  pose proof (shr_fexp_nonneg m e l Hm) as H1.
  destruct (shr_fexp prec emax m e l) as [mrs1 e1]. simpl in H1.
  pose proof (shr_fexp_nonneg _ e1 loc_Exact
                (round_nearest_even_nonneg _ (loc_of_shr_record mrs1) H1)) as H2.
  destruct (shr_fexp prec emax _ e1 loc_Exact) as [mrs2 e2]. simpl in H2.
  destruct (shr_m mrs2) as [|p|p]; [done| |lia].
  by destruct (e2 <=? emax - prec)%Z.
Qed.

(** The float of a decimal numeral is zero, positive or infinite. *)
Lemma decimal_to_float_nonneg n k : nonneg_float (decimal_to_float n k) = true.
Proof.
  unfold decimal_to_float. destruct n as [|m]; [done|].
  unfold SFdiv, SFdiv_core_binary. cbn [xorb].
  set (d := Z.to_pos (10 ^ Z.of_nat k)).
  set (e' := Z.min _ _). set (m' := match (0 - 0 - e')%Z with
                                     | Z0 => Z.pos m
                                     | Z.pos _ => Z.shiftl (Z.pos m) (0 - 0 - e')
                                     | Z.neg _ => 0%Z
                                     end).
  assert (Hm' : (0 <= m')%Z).
  { unfold m'. destruct (0 - 0 - e')%Z; [lia| |lia].
    by apply Z.shiftl_nonneg. }
  pose proof (Z.div_pos m' (Z.pos d) Hm' eq_refl) as Hq.
  unfold Z.div in Hq.
  destruct (Z.div_eucl m' (Z.pos d)) as [q r].
  by apply binary_round_aux_nonneg.
Qed.

Lemma SFcompare_antisym (x y : float) :
  SFcompare y x = CompOpp <$> SFcompare x y.
Proof.
  destruct x as [sx|sx| |sx mx ex], y as [sy|sy| |sy my ey];
    try destruct sx; try destruct sy; try reflexivity; simpl.
  all: rewrite (Z.compare_antisym ex ey); destruct (ex ?= ey)%Z; simpl;
    try reflexivity.
  all: change (Pos.compare_cont Eq my mx) with (my ?= mx)%positive;
    change (Pos.compare_cont Eq mx my) with (mx ?= my)%positive;
    rewrite (Pos.compare_antisym mx my); by destruct (mx ?= my)%positive.
Qed.

(** Without a NaN, [>=] is the negation of [<]. *)
Lemma fge_negb_flt (x y : float) :
  is_nan x = false -> is_nan y = false -> fge x y = negb (flt x y).
Proof.
  intros Hx Hy. unfold fge, flt, SFleb, SFltb.
  rewrite (SFcompare_antisym x y).
  destruct x as [sx|sx| |sx mx ex], y as [sy|sy| |sy my ey]; try done;
    by destruct (SFcompare _ _) as [[]|] eqn:Hc.
Qed.

Lemma nonneg_float_not_nan x : nonneg_float x = true -> is_nan x = false.
Proof. by destruct x as [[]|[]| |[]]. Qed.

(** What extraction returns is the float of some numeral. *)
Lemma extract_numeral_value text pt x :
  extract_price_from_text text pt = Returns (Some x) ->
  exists ip fp, x = numeral_value ip fp.
Proof.
  unfold extract_price_from_text. cbv zeta.
  destruct (scan_patterns (patterns_of pt) (py_lower text)) as [[y|]|] eqn:Hscan;
    [|..|done].
  - intros [= ->].
    destruct (scan_patterns_within _ _ _ (patterns_grouped pt) Hscan)
      as (ip & sep & fp & _ & _ & ->). by exists ip, fp.
  - destruct (re_search fallback_pattern (py_lower text)) as [m|] eqn:Hm; [|done].
    destruct (parse_group m) as [[y|]|] eqn:Hparse; [|done..].
    intros [= ->].
    destruct (parse_group_within fallback_pattern _ m x fallback_grouped Hm Hparse)
      as (ip & sep & fp & _ & _ & ->). by exists ip, fp.
Qed.

Lemma extract_nonneg text pt x :
  extract_price_from_text text pt = Returns (Some x) -> nonneg_float x = true.
Proof.
  intros (ip & fp & ->)%extract_numeral_value. apply decimal_to_float_nonneg.
Qed.

(** X3: the price [extract_price_from_text] returns is zero, positive or
    plus infinity, never NaN and never negative; against a target that is
    not NaN it is therefore either below it or at or above it. *)
Theorem extracted_price_is_nonnegative text pt x :
  extract_price_from_text text pt = Returns (Some x) ->
  nonneg_float x = true /\
  (forall target, is_nan target = false -> fge x target = negb (flt x target)).
Proof.
  intros Hnonneg%extract_nonneg.
  split; [done|]. intros target Htarget.
  apply fge_negb_flt; [|done]. by apply nonneg_float_not_nan.
Qed.

Lemma extracted_price_is_nonnegative_witness :
  nonneg_float f_0_1067 = true /\
  (forall target, is_nan target = false ->
                  fge f_0_1067 target = negb (flt f_0_1067 target)).
Proof.
  apply (extracted_price_is_nonnegative (txt "0,1067 €/kWh") electricity).
  reflexivity.
Defined.

(* ===================================================================== *)
(** ** The matcher finds a match whenever there is one *)
(* ===================================================================== *)

Section MatcherComplete.
Context {R : Type}.

Lemma star_match_here k s (kont : str -> option R) :
  is_Some (kont s) -> is_Some (star_match k s kont).
Proof.
  intros Hk. destruct s as [|c s]; simpl; [done|].
  destruct (in_class k c); [|done].
  by destruct (star_match k s kont).
Qed.

Lemma star_match_complete k u s (kont : str -> option R) :
  forallb (in_class k) u = true ->
  is_Some (kont s) -> is_Some (star_match k (u ++ s) kont).
Proof.
  intros Hu Hk. induction u as [|c u IH]; simpl in *.
  - by apply star_match_here.
  - apply andb_true_iff in Hu as [Hc Hu]. rewrite Hc.
    destruct (IH Hu) as [x ->]. by eexists.
Qed.

Lemma rmatch_complete r u g g' :
  matches r u g g' ->
  forall s (kont : str -> option str -> option R),
    is_Some (kont s g') -> is_Some (rmatch r (u ++ s) g kont).
Proof.
  induction 1 as [g|k c g Hc|k u g Hu|k c u g Hc Hu|r u g g' Hm IH|r g
                  |r1 r2 u1 u2 g g1 g2 Hm1 IH1 Hm2 IH2|r u g g' Hm IH];
    intros s kont Hk; simpl.
  - done.
  - by rewrite Hc.
  - by apply star_match_complete.
  - rewrite Hc. by apply star_match_complete.
  - destruct (IH s kont Hk) as [x ->]. by eexists.
  - by destruct (rmatch r s g kont).
  - rewrite <- app_assoc. apply IH1, IH2, Hk.
  - apply IH. by rewrite take_prefix.
Qed.
End MatcherComplete.

Lemma re_search_complete p pre u s g g' :
  matches p u g g' -> g = None -> is_Some (re_search p (pre ++ u ++ s)).
Proof.
  intros Hm ->. induction pre as [|c pre IH]; rewrite re_search_unfold.
  - destruct (rmatch_complete p u None g' Hm s
                (fun _ h => Some {| group1 := h |})) as [m Hre]; [by eexists|].
    unfold re_match. simpl app. rewrite Hre. by eexists.
  - destruct (re_match p ((c :: pre) ++ u ++ s)); [by eexists|]. exact IH.
Qed.

(** A pattern that matches somewhere lets every pattern subsuming it
    match somewhere as well. *)
Lemma subsumes_search p q s :
  subsumes p q -> is_Some (re_search q s) -> is_Some (re_search p s).
Proof.
  intros Hpq [m Hm].
  apply re_search_sound in Hm as (pre & u & s' & g & -> & Hu & _).
  by apply (re_search_complete p pre u s' None g (Hpq _ _ _ Hu)).
Qed.

Lemma seq_mono_r a b b' u g g' :
  matches (Seq a b) u g g' ->
  (forall v h h', matches b v h h' -> matches b' v h h') ->
  matches (Seq a b') u g g'.
Proof.
  intros H Hb. inversion H; subst. econstructor; [done|]. by apply Hb.
Qed.

Lemma take_opt r x u g g' :
  matches (Seq r x) u g g' -> matches (Seq (Opt r) x) u g g'.
Proof.
  intros H. inversion H; subst. econstructor; [|done].
  by apply matches_opt_taken.
Qed.

Lemma skip_opt r x u g g' :
  matches x u g g' -> matches (Seq (Opt r) x) u g g'.
Proof.
  intros H. apply (matches_seq _ _ [] u g g g'); [|done].
  apply matches_opt_skipped.
Qed.

Lemma skip_star k x u g g' :
  matches x u g g' -> matches (Seq (Star k) x) u g g'.
Proof.
  intros H. apply (matches_seq _ _ [] u g g g'); [|done].
  by apply matches_star.
Qed.

Ltac subsume H :=
  first
    [ exact H
    | apply (seq_mono_r _ _ _ _ _ _ H);
      let v := fresh "v" in let h := fresh "h" in let h' := fresh "h" in
      let H' := fresh "H" in
      intros v h h' H'; subsume H'
    | apply take_opt; subsume H
    | apply skip_opt; subsume H
    | apply skip_star; subsume H ].

(* ===================================================================== *)
(** ** Patterns that never decide *)
(* ===================================================================== *)

Lemma scan_patterns_app ps qs lower :
  scan_patterns (ps ++ qs) lower =
    match scan_patterns ps lower with
    | Returns None => scan_patterns qs lower
    | r => r
    end.
Proof.
  induction ps as [|p ps IH]; simpl; [done|].
  destruct (re_search p lower) as [m|]; [|done].
  by destruct (parse_group m) as [[x|]|].
Qed.

Lemma scan_patterns_none_unmatched ps lower :
  Forall (fun p => group_body p = Some numeral_body) ps ->
  scan_patterns ps lower = Returns None ->
  Forall (unmatched lower) ps.
Proof.
  induction 1 as [|p ps Hp _ IH]; simpl; [by constructor|].
  destruct (re_search p lower) as [m|] eqn:Hm.
  - by destruct (parse_group_numeral _ _ _ Hp Hm) as (g & x & _ & _ & ->).
  - intros Hscan. constructor; [done|]. by apply IH.
Qed.

(** Patterns that can match only where an earlier pattern matches add
    nothing to the loop. *)
Lemma scan_patterns_redundant ps qs lower :
  Forall (fun p => group_body p = Some numeral_body) ps ->
  Forall (fun q => is_Some (re_search q lower) ->
                   Exists (fun p => is_Some (re_search p lower)) ps) qs ->
  scan_patterns (ps ++ qs) lower = scan_patterns ps lower.
Proof.
  intros Hps Hqs. rewrite scan_patterns_app.
  destruct (scan_patterns ps lower) as [[x|]|] eqn:Hscan; try done.
  apply scan_patterns_unmatched.
  pose proof (scan_patterns_none_unmatched _ _ Hps Hscan) as Hnone.
  apply List.Forall_forall. intros q Hq.
  rewrite List.Forall_forall in Hqs. specialize (Hqs q Hq).
  unfold unmatched. destruct (re_search q lower) as [m|] eqn:Hm; [|done].
  assert (Hex : Exists (fun p => is_Some (re_search p lower)) ps)
    by (apply Hqs; rewrite ?Hm; by eexists).
  apply List.Exists_exists in Hex as (p & Hp & [m' Hm']).
  rewrite List.Forall_forall in Hnone. specialize (Hnone p Hp).
  unfold unmatched in Hnone. congruence.
Qed.

Lemma gas_later_patterns_subsumed :
  Forall (fun q => subsumes (List.nth 0 gas_patterns Eps) q \/
                   subsumes (List.nth 1 gas_patterns Eps) q)
    (drop 2 gas_patterns).
Proof.
  unfold gas_patterns. cbn [drop List.nth].
  repeat apply List.Forall_cons; [left|left|left|right|left|left|];
    try apply List.Forall_nil;
    intros u g g' H; vm_compute in H |- *; subsume H.
Qed.

Lemma electricity_later_patterns_subsumed :
  Forall (fun q => requires 87%N q = true \/
                   subsumes (List.nth 0 electricity_patterns Eps) q \/
                   subsumes (List.nth 1 electricity_patterns Eps) q)
    (drop 2 electricity_patterns).
Proof.
  unfold electricity_patterns. cbn [drop List.nth].
  repeat apply List.Forall_cons;
    [left|left|right; left|right; right|left|left|];
    try apply List.Forall_nil; try reflexivity;
    intros u g g' H; vm_compute in H |- *; subsume H.
Qed.

(** X4: only the first two patterns of each list ever decide the result
    of the loop: wherever one of the six later patterns matches the
    lowered text, the first or the second matches too (the later gas
    patterns and the plain electricity patterns are special cases of
    them, and the electricity patterns spelled with a capital W match
    nothing). *)
Theorem later_patterns_never_decide text pt :
  scan_patterns (patterns_of pt) (py_lower text) =
  scan_patterns (take 2 (patterns_of pt)) (py_lower text).
Proof.
  rewrite <- (take_drop 2 (patterns_of pt)) at 1.
  apply scan_patterns_redundant.
  - destruct pt; by repeat constructor.
  - destruct pt; simpl patterns_of.
    + eapply List.Forall_impl; [|apply electricity_later_patterns_subsumed].
      intros q [Hcap|[H1|H2]] Hq.
      * pose proof (capital_pattern_unmatched text 87%N q) as Hdead.
        unfold unmatched in Hdead. rewrite Hdead in Hq; [by destruct Hq|lia|done].
      * apply List.Exists_cons_hd. by apply (subsumes_search _ q).
      * apply List.Exists_cons_tl, List.Exists_cons_hd.
        by apply (subsumes_search _ q).
    + eapply List.Forall_impl; [|apply gas_later_patterns_subsumed].
      intros q [H1|H2] Hq.
      * apply List.Exists_cons_hd. by apply (subsumes_search _ q).
      * apply List.Exists_cons_tl, List.Exists_cons_hd.
        by apply (subsumes_search _ q).
Qed.

(* ===================================================================== *)
(** ** The fallback and the euro-first form *)
(* ===================================================================== *)

Lemma digit_range c : is_digit c = true -> (48 <= c <= 57)%N.
Proof.
  unfold is_digit. intros [H1 H2]%andb_true_iff.
  apply N.leb_le in H1, H2. lia.
Qed.

Lemma digit_not_space c : is_digit c = true -> is_space c = false.
Proof.
  intros Hc%digit_range.
  assert (Hcases : (c = 48 \/ c = 49 \/ c = 50 \/ c = 51 \/ c = 52 \/ c = 53 \/
                    c = 54 \/ c = 55 \/ c = 56 \/ c = 57)%N) by lia.
  by repeat destruct Hcases as [->|Hcases]; subst.
Qed.

(** A numeral followed by [tail] lacks every character that is no digit,
    no separator and not in [tail]. *)
Lemma numeral_tail_lacks c ip sep fp tail :
  is_numeral ip sep fp = true ->
  is_digit c = false -> c <> 44%N -> c <> 46%N -> ~ In c tail ->
  ~ In c (ip ++ sep :: fp ++ tail).
Proof.
  intros (_ & Hip & Hsep & _ & Hfp)%is_numeral_parts Hc H44 H46 Htail.
  rewrite List.forallb_forall in Hip, Hfp.
  intros [Hin|[Hin|[Hin|Hin]%in_app_or]]%in_app_or.
  - apply Hip in Hin. congruence.
  - destruct Hsep; congruence.
  - apply Hfp in Hin. congruence.
  - done.
Qed.

(** When no listed pattern matches, a leading numeral followed by blanks
    and the euro sign is taken by the fallback. *)
Lemma extract_by_fallback pt text ip sep fp tail :
  is_numeral ip sep fp = true ->
  py_lower text = ip ++ sep :: fp ++ tail ->
  digits_end tail = true ->
  Forall (unmatched (py_lower text)) (patterns_of pt) ->
  rmatch (ws ⋅ lit "€") tail (Some (ip ++ sep :: fp))
    (fun _ g => Some {| group1 := g |})
    = Some {| group1 := Some (ip ++ sep :: fp) |} ->
  extract_price_from_text text pt = Returns (Some (numeral_value ip fp)).
Proof.
  intros Hnum Hlower Hend Hnone Hrest.
  unfold extract_price_from_text. cbv zeta.
  rewrite (scan_patterns_unmatched _ _ Hnone), Hlower.
  unfold fallback_pattern.
  rewrite (search_leading_numeral _ _ _ _ _ Hnum Hend Hrest).
  unfold parse_group. cbn [group1].
  by rewrite (py_float_numeral _ _ _ Hnum).
Qed.

(** X5: the fallback does not look at the unit: asked for one commodity
    on a text that quotes only the other one ("0,1067 €/kWh" asked for
    gas, "0,85 €/Smc" asked for electricity), the extractor returns the
    other commodity's price. *)
Theorem other_commodity_price_is_taken pt ip sep fp :
  is_numeral ip sep fp = true ->
  extract_price_from_text
    (ip ++ sep :: fp ++ txt " " ++ unit_label (other pt)) pt
  = Returns (Some (numeral_value ip fp)).
Proof.
  intros Hnum.
  assert (Hlower : py_lower (ip ++ sep :: fp ++ txt " " ++ unit_label (other pt))
                   = ip ++ sep :: fp ++ py_lower (txt " " ++ unit_label (other pt)))
    by (by apply py_lower_numeral).
  apply (extract_by_fallback pt _ ip sep fp _ Hnum Hlower).
  - by destruct pt.
  - rewrite Hlower. apply List.Forall_forall. intros p Hp. destruct pt.
    + assert (Hreq : requires 104%N p || requires 87%N p = true).
      { revert p Hp. by apply List.forallb_forall. }
      apply orb_true_iff in Hreq as [Hreq|Hreq].
      * apply (missing_char_unmatched _ 104%N); [done|].
        apply numeral_tail_lacks; try done. vm_compute. intuition discriminate.
      * apply (missing_char_unmatched _ 87%N); [done|].
        apply numeral_tail_lacks; try done. vm_compute. intuition discriminate.
    + assert (Hreq : requires 99%N p = true).
      { revert p Hp. by apply List.forallb_forall. }
      apply (missing_char_unmatched _ 99%N); [done|].
      apply numeral_tail_lacks; try done. vm_compute. intuition discriminate.
  - by destruct pt.
Qed.

Lemma other_commodity_price_is_taken_witness :
  extract_price_from_text (txt "0" ++ 44%N :: txt "1067" ++ txt " " ++ unit_label electricity) gas
  = Returns (Some (numeral_value (txt "0") (txt "1067"))).
Proof.
  apply (other_commodity_price_is_taken gas (txt "0") 44%N (txt "1067")).
  reflexivity.
Defined.

Lemma consumes_sound r u g g' :
  matches r u g g' -> consumes r = true -> u <> [].
Proof.
  induction 1 as [g|k c g Hc|k u g Hu|k c u g Hc Hu|r u g g' Hm IH|r g
                  |r1 r2 u1 u2 g g1 g2 Hm1 IH1 Hm2 IH2|r u g g' Hm IH];
    simpl; try done.
  intros [H1|H2]%orb_true_iff.
  - specialize (IH1 H1). by destruct u1.
  - specialize (IH2 H2). by destruct u1, u2.
Qed.

(** A pattern that first consumes something and then needs [c] matches
    only where [c] stands after the first character. *)
Lemma late_char_unmatched a b c x s :
  consumes a = true -> requires c b = true -> ~ In c s ->
  unmatched (x :: s) (Seq a b).
Proof.
  intros Ha Hb Hc. unfold unmatched.
  destruct (re_search (Seq a b) (x :: s)) as [m|] eqn:Hm; [|done].
  apply re_search_sound in Hm as (pre & u & s' & g & Hs & Hu & _).
  inversion Hu as [| | | | | |? ? u1 u2 ? g1 ? Hu1 Hu2|]; subst.
  pose proof (consumes_sound _ _ _ _ Hu1 Ha) as Hne.
  pose proof (requires_sound _ _ _ _ _ Hu2 Hb) as Hin.
  destruct Hc. destruct pre as [|y pre]; simpl in Hs.
  - destruct u1 as [|z u1]; [done|]. simpl in Hs. injection Hs as _ ->.
    apply in_or_app. left. apply in_or_app. by right.
  - injection Hs as _ ->. apply in_or_app. right.
    apply in_or_app. left. apply in_or_app. by right.
Qed.

Lemma search_euro_then_numeral rest ip sep fp tail :
  is_numeral ip sep fp = true ->
  digits_end tail = true ->
  rmatch rest tail (Some (ip ++ sep :: fp)) (fun _ g => Some {| group1 := g |})
    = Some {| group1 := Some (ip ++ sep :: fp) |} ->
  re_search (lit "€" ⋅ ws ⋅ numeral ⋅ rest) (8364%N :: ip ++ sep :: fp ++ tail)
    = Some {| group1 := Some (ip ++ sep :: fp) |}.
Proof.
  intros Hnum Hend Hrest.
  assert (Hm : re_match (lit "€" ⋅ ws ⋅ numeral ⋅ rest)
                 (8364%N :: ip ++ sep :: fp ++ tail)
               = Some {| group1 := Some (ip ++ sep :: fp) |}).
  { unfold re_match, ws. change (lit "€") with (One (Lit 8364%N)).
    cbn [rmatch in_class]. rewrite N.eqb_refl.
    pose proof Hnum as (Hip1 & Hip & _)%is_numeral_parts.
    destruct ip as [|d ip]; [done|]. simpl in Hip.
    apply andb_true_iff in Hip as [Hd _].
    cbn [app star_match in_class]. rewrite (digit_not_space _ Hd).
    change (d :: ip ++ sep :: fp ++ tail) with ((d :: ip) ++ sep :: fp ++ tail).
    by apply rmatch_numeral. }
  by rewrite re_search_unfold, Hm.
Qed.

(** X6: the euro sign may come first: "€0.1067/kWh" for electricity and
    "€0.8567/Smc" for gas, with any numeral, extract to the numeral's
    value (by the second pattern, the first one finding nothing). *)
Theorem euro_before_numeral pt ip sep fp :
  is_numeral ip sep fp = true ->
  extract_price_from_text
    (txt "€" ++ ip ++ sep :: fp ++
     match pt with electricity => txt "/kWh" | gas => txt "/Smc" end) pt
  = Returns (Some (numeral_value ip fp)).
Proof.
  intros Hnum.
  set (tail := match pt with electricity => txt "/kWh" | gas => txt "/Smc" end).
  assert (Hlower : py_lower (txt "€" ++ ip ++ sep :: fp ++ tail)
                   = 8364%N :: ip ++ sep :: fp ++ py_lower tail).
  { change (txt "€" ++ ip ++ sep :: fp ++ tail)
      with (8364%N :: ip ++ sep :: fp ++ tail).
    change (py_lower (8364%N :: ip ++ sep :: fp ++ tail))
      with (8364%N :: py_lower (ip ++ sep :: fp ++ tail)).
    by rewrite (py_lower_numeral _ _ _ _ Hnum). }
  assert (Hfirst : unmatched (py_lower (txt "€" ++ ip ++ sep :: fp ++ tail))
                     (List.nth 0 (patterns_of pt) Eps)).
  { rewrite Hlower. destruct pt; apply (late_char_unmatched _ _ 8364%N); try reflexivity;
      apply numeral_tail_lacks; try done; vm_compute; intuition discriminate. }
  assert (Hsecond : re_search (List.nth 1 (patterns_of pt) Eps)
                      (py_lower (txt "€" ++ ip ++ sep :: fp ++ tail))
                    = Some {| group1 := Some (ip ++ sep :: fp) |}).
  { rewrite Hlower. destruct pt; by apply search_euro_then_numeral. }
  unfold extract_price_from_text. cbv zeta.
  assert (Hsplit : patterns_of pt
                   = [List.nth 0 (patterns_of pt) Eps]
                     ++ List.nth 1 (patterns_of pt) Eps :: drop 2 (patterns_of pt))
    by (by destruct pt).
  assert (Hnone : Forall (unmatched (py_lower (txt "€" ++ ip ++ sep :: fp ++ tail)))
                    [List.nth 0 (patterns_of pt) Eps])
    by (constructor; [exact Hfirst|constructor]).
  rewrite Hsplit at 1.
  rewrite (scan_patterns_first _ _ _ _ _ Hnone Hsecond).
  unfold parse_group. cbn [group1].
  by rewrite (py_float_numeral _ _ _ Hnum).
Qed.

Lemma euro_before_numeral_witness :
  extract_price_from_text
    (txt "€" ++ txt "0" ++ 46%N :: txt "1067" ++ txt "/kWh") electricity
  = Returns (Some (numeral_value (txt "0") (txt "1067"))).
Proof.
  apply (euro_before_numeral electricity (txt "0") 46%N (txt "1067")).
  reflexivity.
Defined.

(* ===================================================================== *)
(** ** Where the price stands in the text *)
(* ===================================================================== *)

Lemma re_match_needs_digit rest c s :
  is_digit c = false -> re_match (numeral ⋅ rest) (c :: s) = None.
Proof.
  intros Hc. unfold re_match, numeral, numeral_body. cbn [rmatch].
  change (in_class Digit c) with (is_digit c). by rewrite Hc.
Qed.

Lemma re_search_skips_nondigits rest prefix s :
  forallb (fun c => negb (is_digit c)) prefix = true ->
  re_search (numeral ⋅ rest) (prefix ++ s) = re_search (numeral ⋅ rest) s.
Proof.
  induction prefix as [|c prefix IH]; [done|]. cbn [forallb app].
  intros [Hc Hprefix]%andb_true_iff. apply negb_true_iff in Hc.
  rewrite re_search_unfold, (re_match_needs_digit _ _ _ Hc). by apply IH.
Qed.

Lemma lower_char_digit c : is_digit (lower_char c) = is_digit c.
Proof.
  unfold lower_char. destruct ((65 <=? c) && (c <=? 90))%N eqn:Hcap; [|done].
  apply andb_true_iff in Hcap as [H65 H90]. apply N.leb_le in H65, H90.
  unfold is_digit.
  destruct (N.leb_spec 48 (c + 32)), (N.leb_spec (c + 32) 57),
           (N.leb_spec 48 c), (N.leb_spec c 57); simpl; try done; lia.
Qed.

Lemma py_lower_nondigits prefix :
  forallb (fun c => negb (is_digit c)) prefix = true ->
  forallb (fun c => negb (is_digit c)) (py_lower prefix) = true.
Proof.
  induction prefix as [|c prefix IH]; [done|]. cbn [forallb py_lower List.map].
  intros [Hc Hprefix]%andb_true_iff.
  fold (py_lower prefix). by rewrite lower_char_digit, Hc, IH.
Qed.

(** A numeral with the unit of the commodity, after a part without
    digits: the first pattern finds it there, whatever follows. *)
Lemma extract_quoted_price pt prefix ip sep fp suffix :
  forallb (fun c => negb (is_digit c)) prefix = true ->
  is_numeral ip sep fp = true ->
  extract_price_from_text
    (prefix ++ ip ++ sep :: fp ++ txt " " ++ unit_label pt ++ suffix) pt
  = Returns (Some (numeral_value ip fp)).
Proof.
  intros Hprefix Hnum.
  assert (Hlower :
    py_lower (prefix ++ ip ++ sep :: fp ++ txt " " ++ unit_label pt ++ suffix)
    = py_lower prefix ++ ip ++ sep :: fp
      ++ py_lower (txt " " ++ unit_label pt) ++ py_lower suffix).
  { unfold py_lower at 1. rewrite map_app. fold (py_lower prefix).
    fold (py_lower (ip ++ sep :: fp ++ txt " " ++ unit_label pt ++ suffix)).
    rewrite (py_lower_numeral _ _ _ _ Hnum).
    unfold py_lower. by rewrite (app_assoc (txt " ")), map_app. }
  assert (Hfirst : exists rest ps,
    patterns_of pt = (numeral ⋅ rest)%re :: ps /\
    rmatch rest (py_lower (txt " " ++ unit_label pt) ++ py_lower suffix)
      (Some (ip ++ sep :: fp)) (fun _ g => Some {| group1 := g |})
    = Some {| group1 := Some (ip ++ sep :: fp) |}).
  { destruct pt; eexists _, _; split; reflexivity. }
  destruct Hfirst as (rest & ps & Hpt & Hrest).
  unfold extract_price_from_text. cbv zeta. rewrite Hpt, Hlower.
  cbn [scan_patterns].
  rewrite (re_search_skips_nondigits _ _ _ (py_lower_nondigits _ Hprefix)).
  rewrite (search_leading_numeral _ _ _ _ _ Hnum); [| |exact Hrest].
  - unfold parse_group. cbn [group1]. by rewrite (py_float_numeral _ _ _ Hnum).
  - by destruct pt.
Qed.

Lemma plain_nondigits prefix :
  forallb (fun c => plain c && negb (is_digit c)) prefix = true ->
  forallb (fun c => negb (is_digit c)) prefix = true.
Proof.
  intros Hplain. apply forallb_forall. intros c Hc.
  apply (proj1 (forallb_forall _ _) Hplain) in Hc.
  by apply andb_true_iff in Hc as [_ Hc].
Qed.

(** X19: the first quoted price wins: when a numeral followed by a blank
    and the unit of the commodity stands in the text after a part of
    plain code points without any digit, its value is returned, whatever
    follows it (a later, lower price included). *)
Theorem first_quoted_price_wins pt prefix ip sep fp suffix :
  forallb (fun c => plain c && negb (is_digit c)) prefix = true ->
  is_numeral ip sep fp = true ->
  extract_price_from_text
    (prefix ++ ip ++ sep :: fp ++ txt " " ++ unit_label pt ++ suffix) pt
  = Returns (Some (numeral_value ip fp)).
Proof.
  intros Hplain Hnum.
  apply extract_quoted_price; [|exact Hnum]. by apply plain_nondigits.
Qed.

Lemma first_quoted_price_wins_witness :
  extract_price_from_text
    (txt "Luce, € " ++ txt "0" ++ 44%N :: txt "1067" ++ txt " "
     ++ unit_label electricity ++ txt ", da domani 0,0900 €/kWh") electricity
  = Returns (Some (numeral_value (txt "0") (txt "1067"))).
Proof.
  apply (first_quoted_price_wins electricity (txt "Luce, € ") (txt "0") 44%N
           (txt "1067") (txt ", da domani 0,0900 €/kWh")); reflexivity.
Defined.

(* ===================================================================== *)
(** ** fetch_price_by_scraping *)
(* ===================================================================== *)

(** X7: a request that fails or answers with a 4xx or 5xx status (403
    included) gives no price, whatever the body says; [check_price] then
    returns the state as it was and makes no delivery call. *)
Theorem failed_fetch_changes_nothing w pt url target state :
  (requests_get w url = Raises \/
   exists r, requests_get w url = Returns r /\ status_ok r = false) ->
  fetch_price_by_scraping w url pt = None /\
  check_price w pt url target state = (Returns state, []).
Proof.
  intros Hget.
  assert (Hnone : fetch_price_by_scraping w url pt = None).
  { unfold fetch_price_by_scraping.
    destruct Hget as [->|(r & -> & Hr)]; [done|].
    destruct (status_code r =? 403)%Z; [done|].
    unfold status_ok in Hr. apply negb_false_iff in Hr. by rewrite Hr. }
  split; [done|]. by apply check_price_absent.
Qed.

Lemma failed_fetch_changes_nothing_witness :
  let w := {| TELEGRAM_TOKEN := Some (txt "token");
              TELEGRAM_CHAT_ID := Some (txt "chat");
              requests_get := fun _ =>
                Returns {| status_code := 503; text := txt "0,05 €/kWh" |};
              visible_text := fun _ => Returns [];
              requests_post := fun _ => Returns true |} in
  fetch_price_by_scraping w ELECTRICITY_TARIFF_URL electricity = None /\
  check_price w electricity ELECTRICITY_TARIFF_URL f_0_11 (load_state None)
    = (Returns (load_state None), []).
Proof.
  intros w.
  apply (failed_fetch_changes_nothing w electricity ELECTRICITY_TARIFF_URL
           f_0_11 (load_state None)).
  right. eexists. split; reflexivity.
Defined.

Lemma fetch_scrapes w url pt r :
  requests_get w url = Returns r -> status_ok r = true ->
  fetch_price_by_scraping w url pt =
    let from_visible_text :=
      match visible_text w (text r) with
      | Raises => None
      | Returns visible =>
        match extract_price_from_text visible pt with
        | Raises => None
        | Returns price => price
        end
      end in
    match extract_price_from_text (text r) pt with
    | Raises => None
    | Returns (Some price) =>
      if float_truthy price then Some price else from_visible_text
    | Returns None => from_visible_text
    end.
Proof.
  intros Hget Hok. unfold fetch_price_by_scraping. rewrite Hget.
  unfold status_ok in Hok. apply negb_true_iff in Hok. rewrite Hok.
  destruct (status_code r =? 403)%Z eqn:H403; [|done].
  apply Z.eqb_eq in H403. rewrite H403 in Hok. discriminate Hok.
Qed.

(** A fetched price was extracted from the page or from its visible text. *)
Lemma fetched_price_extracted w url pt price :
  fetch_price_by_scraping w url pt = Some price ->
  exists page, extract_price_from_text page pt = Returns (Some price).
Proof.
  unfold fetch_price_by_scraping.
  destruct (requests_get w url) as [r|]; [|done].
  destruct (status_code r =? 403)%Z; [done|].
  destruct ((400 <=? status_code r) && (status_code r <? 600))%Z; [done|].
  cbv zeta.
  assert (Hvisible :
    match visible_text w (text r) with
    | Raises => None
    | Returns visible =>
      match extract_price_from_text visible pt with
      | Raises => None
      | Returns p => p
      end
    end = Some price ->
    exists page, extract_price_from_text page pt = Returns (Some price)).
  { destruct (visible_text w (text r)) as [visible|]; [|done].
    destruct (extract_price_from_text visible pt) as [o|] eqn:Hv; [|done].
    intros ->. by exists visible. }
  destruct (extract_price_from_text (text r) pt) as [[p|]|] eqn:Hhtml; try done.
  destruct (float_truthy p); [|done].
  intros [= ->]. by exists (text r).
Qed.

Lemma digits_value_zeros ds acc :
  forallb (N.eqb 48) ds = true -> digits_value acc ds = (acc * 10 ^ N.of_nat (length ds))%N.
Proof.
  revert acc. induction ds as [|d ds IH]; intros acc;
    cbn [forallb digits_value length].
  - intros _. change (10 ^ N.of_nat 0)%N with 1%N. lia.
  - intros [Hd Hds]%andb_true_iff. apply N.eqb_eq in Hd. subst d.
    rewrite (IH _ Hds), Nat2N.inj_succ, N.pow_succ_r'.
    change (48 - 48)%N with 0%N. ring.
Qed.

(** X8: a price of zero found in the raw page is not returned from it
    ([if price:]).  For a page that quotes a numeral of zeros with the
    unit, after a part of plain code points without digits, the raw
    extraction gives 0.0 and the result is what the visible text gives:
    nothing when the page has no element (the visible text is empty),
    0.0 again when the visible text is the quote. *)
Theorem zero_price_in_page_is_skipped w url pt r prefix ip sep fp suffix :
  requests_get w url = Returns r -> status_ok r = true ->
  forallb (fun c => plain c && negb (is_digit c)) prefix = true ->
  is_numeral ip sep fp = true ->
  forallb (N.eqb 48) (ip ++ fp) = true ->
  text r = prefix ++ ip ++ sep :: fp ++ txt " " ++ unit_label pt ++ suffix ->
  extract_price_from_text (text r) pt = Returns (Some (S754_zero false)) /\
  fetch_price_by_scraping w url pt =
    match visible_text w (text r) with
    | Returns visible =>
      match extract_price_from_text visible pt with
      | Returns price => price
      | Raises => None
      end
    | Raises => None
    end /\
  (visible_text w (text r) = Returns [] ->
   fetch_price_by_scraping w url pt = None) /\
  (visible_text w (text r)
     = Returns (ip ++ sep :: fp ++ txt " " ++ unit_label pt) ->
   fetch_price_by_scraping w url pt = Some (S754_zero false)).
Proof.
  intros Hget Hok Hprefix Hnum Hzero Htext.
  assert (Hvalue : numeral_value ip fp = S754_zero false).
  { unfold numeral_value. by rewrite (digits_value_zeros _ _ Hzero). }
  assert (Hhtml : extract_price_from_text (text r) pt
                  = Returns (Some (S754_zero false))).
  { rewrite Htext, <- Hvalue.
    by apply extract_quoted_price; [apply plain_nondigits|]. }
  assert (Hquote : extract_price_from_text
                     (ip ++ sep :: fp ++ txt " " ++ unit_label pt) pt
                   = Returns (Some (S754_zero false))).
  { rewrite <- Hvalue.
    pose proof (extract_quoted_price pt [] ip sep fp [] eq_refl Hnum) as Hq.
    by rewrite app_nil_r in Hq. }
  assert (Hfetch : fetch_price_by_scraping w url pt =
    match visible_text w (text r) with
    | Returns visible =>
      match extract_price_from_text visible pt with
      | Returns price => price
      | Raises => None
      end
    | Raises => None
    end).
  { rewrite (fetch_scrapes _ _ _ _ Hget Hok). cbv zeta. rewrite Hhtml.
    cbn [float_truthy]. by destruct (visible_text w (text r)). }
  split_and!; [exact Hhtml|exact Hfetch|..].
  - intros Hempty. rewrite Hfetch, Hempty. by destruct pt.
  - intros Hvisible. by rewrite Hfetch, Hvisible, Hquote.
Qed.

Lemma zero_price_in_page_is_skipped_witness :
  let r := {| status_code := 200; text := txt "Gas: 0,00 €/Smc al mese" |} in
  extract_price_from_text (text r) gas = Returns (Some (S754_zero false)) /\
  fetch_price_by_scraping (serving "Gas: 0,00 €/Smc al mese" (Returns true))
    GAS_TARIFF_URL gas = None.
Proof.
  intros r.
  destruct (zero_price_in_page_is_skipped
              (serving "Gas: 0,00 €/Smc al mese" (Returns true))
              GAS_TARIFF_URL gas r
              (txt "Gas: ") (txt "0") 44%N (txt "00") (txt " al mese"))
    as (Hraw & _ & Hbare & _); try (vm_compute; reflexivity).
  split; [exact Hraw|]. apply Hbare. reflexivity.
Defined.

(* ===================================================================== *)
(** ** check_price: what it touches *)
(* ===================================================================== *)

(** Keys other than the two of the checked commodity keep their value. *)
Lemma check_price_frame w pt url target state state' sent k :
  check_price w pt url target state = (Returns state', sent) ->
  k <> last_price_key pt -> k <> notified_key pt ->
  state' !! k = state !! k.
Proof.
  intros Hcheck Hk1 Hk2. revert Hcheck.
  destruct (fetch_price_by_scraping w url pt) as [price|] eqn:Hobs.
  - rewrite (check_price_observed _ _ _ _ _ _ Hobs). cbv zeta.
    repeat case_match; intros [= <- _];
      by rewrite ?(lookup_insert_ne _ (notified_key pt)),
                 ?(lookup_insert_ne _ (last_price_key pt)).
  - rewrite (check_price_absent _ _ _ _ _ Hobs). by intros [= <- _].
Qed.

(** X9: a check changes its own commodity's two fields at most: every
    other key of the state keeps its value, and no key is ever removed. *)
Theorem check_price_touches_own_keys w pt url target state state' sent :
  check_price w pt url target state = (Returns state', sent) ->
  (forall k, k <> last_price_key pt -> k <> notified_key pt ->
             state' !! k = state !! k) /\
  (forall k, is_Some (state !! k) -> is_Some (state' !! k)).
Proof.
  intros Hcheck.
  assert (Hframe : forall k, k <> last_price_key pt -> k <> notified_key pt ->
                             state' !! k = state !! k)
    by (intros k; apply (check_price_frame _ _ _ _ _ _ _ _ Hcheck)).
  split; [done|]. intros k Hk.
  destruct (decide (k = last_price_key pt)) as [->|Hk1];
    [|destruct (decide (k = notified_key pt)) as [->|Hk2]].
  - revert Hcheck.
    destruct (fetch_price_by_scraping w url pt) as [price|] eqn:Hobs.
    + rewrite (check_price_observed _ _ _ _ _ _ Hobs). cbv zeta.
      repeat case_match; intros [= <- _];
        rewrite ?(lookup_insert_ne _ (notified_key pt))
          by (apply not_eq_sym, price_key_not_flag_key);
        by rewrite lookup_insert_eq.
    + rewrite (check_price_absent _ _ _ _ _ Hobs). by intros [= <- _].
  - revert Hcheck.
    destruct (fetch_price_by_scraping w url pt) as [price|] eqn:Hobs.
    + rewrite (check_price_observed _ _ _ _ _ _ Hobs). cbv zeta.
      repeat case_match; intros [= <- _];
        rewrite ?lookup_insert_eq; try done;
        by rewrite lookup_insert_ne by apply price_key_not_flag_key.
    + rewrite (check_price_absent _ _ _ _ _ Hobs). by intros [= <- _].
  - by rewrite Hframe.
Qed.

Lemma check_price_touches_own_keys_witness :
  (forall k, k <> last_price_key electricity -> k <> notified_key electricity ->
             hysteresis_state !! k = load_state None !! k) /\
  (forall k, is_Some (load_state None !! k) -> is_Some (hysteresis_state !! k)).
Proof.
  apply (check_price_touches_own_keys (serving "0.05 €/kWh" (Returns true))
           electricity ELECTRICITY_TARIFF_URL f_0_11 (load_state None)
           hysteresis_state
           [{| msg_type := electricity; msg_price := f_0_05;
               msg_target := f_0_11; msg_url := ELECTRICITY_TARIFF_URL |}]).
  reflexivity.
Defined.

(** While the lock is set, a check makes no delivery call and cannot
    raise. *)
Lemma check_price_locked w pt url target state :
  get_flag state (notified_key pt) = true ->
  exists state', check_price w pt url target state = (Returns state', []).
Proof.
  intros Hlock.
  destruct (fetch_price_by_scraping w url pt) as [price|] eqn:Hobs.
  - rewrite (check_price_observed _ _ _ _ _ _ Hobs). cbv zeta.
    rewrite Hlock, andb_false_r. destruct (fge price target && true); by eexists.
  - rewrite (check_price_absent _ _ _ _ _ Hobs). by eexists.
Qed.

Lemma run_checks_app url target cs1 cs2 state state1 :
  fst (run_checks url target cs1 state) = Returns state1 ->
  fst (run_checks url target (cs1 ++ cs2) state)
  = fst (run_checks url target cs2 state1).
Proof.
  revert state. induction cs1 as [|c cs1 IH]; intros state; simpl.
  - by intros [= ->].
  - destruct (check_step url target c state) as [[s|] sent] eqn:Hstep; [|done].
    specialize (IH s).
    destruct (run_checks url target cs1 s) as [r1 l1].
    destruct (run_checks url target (cs1 ++ cs2) s) as [r2 l2].
    simpl in *. exact IH.
Qed.

(** X10: no second alert before a recovery: after a check that set the
    lock of a commodity and any number of checks that did not clear it,
    the next check of that commodity makes no delivery call (and so
    cannot raise), whatever it observes. *)
Theorem no_second_alert_before_recovery url target state0 pre c mid c' pt state :
  fst (run_checks url target (pre ++ c :: mid) state0) = Returns state ->
  sets_lock url target pt c = true ->
  quiet url target pt mid = true ->
  check_type c' = pt ->
  exists state', check_step url target c' state = (Returns state', []).
Proof.
  intros Hrun Hset Hquiet <-.
  apply check_price_locked.
  apply (lock_after_checks url target (check_type c') _ _ _ Hrun).
  right. by exists pre, c, mid.
Qed.

Lemma no_second_alert_before_recovery_witness :
  exists state',
    check_step tariff_url default_target
      {| check_world := serving "0.01 €/kWh" (Returns true);
         check_type := electricity |}
      hysteresis_state
    = (Returns state', []).
Proof.
  apply (no_second_alert_before_recovery tariff_url default_target
           (load_state None) (take 3 hysteresis_history)
           {| check_world := serving "0.05<!-- -->€/kWh" (Returns true);
              check_type := electricity |} [] _ electricity);
    reflexivity.
Defined.

(* ===================================================================== *)
(** ** Runs without credentials *)
(* ===================================================================== *)

Lemma send_without_credentials w msg :
  no_credentials w = true -> send_telegram_message w msg = Returns false.
Proof. unfold no_credentials, send_telegram_message. by intros ->. Qed.

Lemma check_step_without_credentials url target c state :
  no_credentials (check_world c) = true ->
  (forall pt, get_flag state (notified_key pt) = false) ->
  exists state',
    check_step url target c state = (Returns state', expected_calls url target c) /\
    (forall pt, get_flag state' (notified_key pt) = false).
Proof.
  intros Hcred Hflags. unfold check_step, expected_calls, observation.
  destruct (fetch_price_by_scraping _ _ _) as [price|] eqn:Hobs.
  - rewrite (check_price_observed _ _ _ _ _ _ Hobs). cbv zeta.
    rewrite Hflags, andb_false_r, andb_true_r.
    rewrite (send_without_credentials _ _ Hcred).
    destruct (flt price _); eexists; (split; [reflexivity|]);
      intros pt; by rewrite get_flag_price.
  - rewrite (check_price_absent _ _ _ _ _ Hobs). by eexists.
Qed.

(** X11: without Telegram credentials (token or chat id unset or empty)
    no run raises and no lock is ever set: from the initial state, every
    check that observes a price below target makes a delivery call, which
    fails, so the call is made again at every later check. *)
Theorem without_credentials_never_locked url target cs :
  Forall (fun c => no_credentials (check_world c) = true) cs ->
  exists state,
    run_checks url target cs (load_state None)
      = (Returns state, List.map (expected_calls url target) cs) /\
    (forall pt, get_flag state (notified_key pt) = false).
Proof.
  intros Hcs.
  assert (Hgen : forall state0,
             (forall pt, get_flag state0 (notified_key pt) = false) ->
             exists state,
               run_checks url target cs state0
                 = (Returns state, List.map (expected_calls url target) cs) /\
               (forall pt, get_flag state (notified_key pt) = false)).
  { induction Hcs as [|c cs Hc _ IH]; intros state0 Hflags.
    - by exists state0.
    - destruct (check_step_without_credentials url target c state0 Hc Hflags)
        as (state1 & Hstep & Hflags1).
      destruct (IH state1 Hflags1) as (state & Hrun & Hflags').
      exists state. simpl. by rewrite Hstep, Hrun. }
  apply Hgen. intros pt. apply initial_state_armed.
Qed.

Lemma without_credentials_never_locked_witness :
  exists state,
    run_checks tariff_url default_target
      [ {| check_world := no_env (serving "0.05 €/kWh" (Returns true));
           check_type := electricity |};
        {| check_world := no_env (serving "0.05 €/kWh" (Returns true));
           check_type := electricity |} ]
      (load_state None)
    = (Returns state,
       List.map (expected_calls tariff_url default_target)
         [ {| check_world := no_env (serving "0.05 €/kWh" (Returns true));
              check_type := electricity |};
           {| check_world := no_env (serving "0.05 €/kWh" (Returns true));
              check_type := electricity |} ]) /\
    (forall pt, get_flag state (notified_key pt) = false).
Proof.
  apply (without_credentials_never_locked tariff_url default_target).
  by repeat constructor.
Defined.

(* ===================================================================== *)
(** ** The lock and the last price *)
(* ===================================================================== *)

Lemma fetched_price_nonneg w url pt price :
  fetch_price_by_scraping w url pt = Some price -> nonneg_float price = true.
Proof.
  intros (page & Hpage)%fetched_price_extracted. by apply (extract_nonneg page pt).
Qed.

(** One check keeps: a set lock comes with a last price below target. *)
Lemma check_step_keeps_price_below url target pt c state state' sent :
  is_nan (target pt) = false ->
  check_step url target c state = (Returns state', sent) ->
  (get_flag state (notified_key pt) = true ->
   exists price, state !! last_price_key pt = Some (VFloat price) /\
                 flt price (target pt) = true) ->
  get_flag state' (notified_key pt) = true ->
  exists price, state' !! last_price_key pt = Some (VFloat price) /\
                flt price (target pt) = true.
Proof.
  intros Htarget Hstep Hinv. unfold check_step in Hstep.
  destruct (price_type_eqb (check_type c) pt) eqn:Heq;
    [apply price_type_eqb_eq in Heq as <-
    |assert (Hne : check_type c <> pt)
       by (intros H; apply price_type_eqb_eq in H; congruence)].
  - revert Hstep.
    destruct (fetch_price_by_scraping (check_world c) (url (check_type c))
                (check_type c)) as [price|] eqn:Hobs.
    + rewrite (check_price_observed _ _ _ _ _ _ Hobs). cbv zeta.
      pose proof (fetched_price_nonneg _ _ _ _ Hobs) as Hprice.
      rewrite (fge_negb_flt _ _ (nonneg_float_not_nan _ Hprice) Htarget).
      destruct (flt price (target (check_type c))) eqn:Hlow; simpl.
      * destruct (get_flag state (notified_key (check_type c))); simpl.
        -- intros [= <- _] _. exists price. by rewrite lookup_insert_eq.
        -- destruct (send_telegram_message _ _) as [[]|]; intros [= <- _] _;
             exists price; [|by rewrite lookup_insert_eq].
           rewrite lookup_insert_ne
             by (apply not_eq_sym, price_key_not_flag_key).
           by rewrite lookup_insert_eq.
      * destruct (get_flag state (notified_key (check_type c))) eqn:Hlock; simpl;
          intros [= <- _].
        -- by rewrite get_flag_insert.
        -- by rewrite get_flag_price, Hlock.
    + rewrite (check_price_absent _ _ _ _ _ Hobs). by intros [= <- _].
  - assert (Hk : notified_key (check_type c) <> notified_key pt)
      by (intros H; by apply Hne, notified_key_inj).
    assert (Hl : last_price_key (check_type c) <> last_price_key pt)
      by (intros H; apply Hne; by destruct (check_type c), pt).
    rewrite (check_price_other_lock _ _ _ _ _ _ _ _ Hne Hstep).
    rewrite (check_price_frame _ _ _ _ _ _ _ (last_price_key pt) Hstep);
      [done|by apply not_eq_sym|].
    apply price_key_not_flag_key.
Qed.

(** X12: from the initial state and for a target that is not NaN, a set
    lock always comes with a recorded last price that is below the target
    (absent observations in between change neither). *)
Theorem locked_means_last_price_below url target cs state pt :
  is_nan (target pt) = false ->
  fst (run_checks url target cs (load_state None)) = Returns state ->
  get_flag state (notified_key pt) = true ->
  exists price, state !! last_price_key pt = Some (VFloat price) /\
                flt price (target pt) = true.
Proof.
  intros Htarget.
  assert (Hgen : forall state0,
             (get_flag state0 (notified_key pt) = true ->
              exists price, state0 !! last_price_key pt = Some (VFloat price) /\
                            flt price (target pt) = true) ->
             fst (run_checks url target cs state0) = Returns state ->
             get_flag state (notified_key pt) = true ->
             exists price, state !! last_price_key pt = Some (VFloat price) /\
                           flt price (target pt) = true).
  { induction cs as [|c cs IH]; intros state0 Hinv; simpl.
    - by intros [= <-].
    - destruct (check_step url target c state0) as [[state1|] sent] eqn:Hstep;
        [|done].
      destruct (run_checks url target cs state1) as [r sents] eqn:Hrun.
      simpl. intros ->. apply (IH state1); [|by rewrite Hrun].
      by apply (check_step_keeps_price_below url target pt c state0 state1 sent). }
  apply Hgen. by rewrite initial_state_armed.
Qed.

Lemma locked_means_last_price_below_witness :
  exists price,
    hysteresis_state !! last_price_key electricity = Some (VFloat price) /\
    flt price (default_target electricity) = true.
Proof.
  apply (locked_means_last_price_below tariff_url default_target
           hysteresis_history hysteresis_state electricity); reflexivity.
Defined.

(** X13: with a target that is NaN (as [float("nan")] from the
    environment gives) no comparison holds: a check only records the
    price, never makes a delivery call and never clears a lock. *)
Theorem nan_target_disables_alerts w pt url target state :
  is_nan target = true ->
  check_price w pt url target state =
    (Returns match fetch_price_by_scraping w url pt with
             | Some price => <[last_price_key pt := VFloat price]> state
             | None => state
             end, []).
Proof.
  intros Hnan. destruct target; try discriminate Hnan.
  destruct (fetch_price_by_scraping w url pt) as [price|] eqn:Hobs.
  - rewrite (check_price_observed _ _ _ _ _ _ Hobs). cbv zeta.
    assert (Hlt : flt price S754_nan = false) by (by destruct price).
    assert (Hge : fge price S754_nan = false) by (by destruct price).
    by rewrite Hlt, Hge.
  - by apply check_price_absent.
Qed.

Lemma nan_target_disables_alerts_witness :
  check_price (serving "0.05 €/kWh" (Returns true)) electricity
    ELECTRICITY_TARIFF_URL S754_nan hysteresis_state
  = (Returns (<[last_price_key electricity := VFloat f_0_05]> hysteresis_state), []).
Proof.
  apply (nan_target_disables_alerts (serving "0.05 €/kWh" (Returns true))
           electricity ELECTRICITY_TARIFF_URL S754_nan hysteresis_state).
  reflexivity.
Defined.

(* ===================================================================== *)
(** ** Checks as updates of the state *)
(* ===================================================================== *)

(** What a check does depends on the state only through the lock of its
    own commodity, and it is one of three updates. *)
Lemma check_price_update w pt url target state state' sent :
  check_price w pt url target state = (Returns state', sent) ->
  exists u,
    update_price_nonneg u /\
    forall s, get_flag s (notified_key pt) = get_flag state (notified_key pt) ->
              check_price w pt url target s = (Returns (apply_update pt u s), sent).
Proof.
  destruct (fetch_price_by_scraping w url pt) as [price|] eqn:Hobs.
  - pose proof (fetched_price_nonneg _ _ _ _ Hobs) as Hprice.
    rewrite (check_price_observed _ _ _ _ _ _ Hobs). cbv zeta.
    destruct (flt price target && negb (get_flag state (notified_key pt))) eqn:Hlow.
    + destruct (send_telegram_message w _) as [ok|] eqn:Hsend; [|done].
      intros [= _ <-].
      exists (Some (price, if ok then Some true else None)). split; [done|].
      intros s Hs. rewrite (check_price_observed _ _ _ _ _ _ Hobs). cbv zeta.
      rewrite Hs, Hlow, Hsend. by destruct ok.
    + destruct (fge price target && get_flag state (notified_key pt)) eqn:Hhigh;
        intros [= _ <-].
      * exists (Some (price, Some false)). split; [done|].
        intros s Hs. rewrite (check_price_observed _ _ _ _ _ _ Hobs). cbv zeta.
        by rewrite Hs, Hlow, Hhigh.
      * exists (Some (price, None)). split; [done|].
        intros s Hs. rewrite (check_price_observed _ _ _ _ _ _ Hobs). cbv zeta.
        by rewrite Hs, Hlow, Hhigh.
  - rewrite (check_price_absent _ _ _ _ _ Hobs). intros [= _ <-].
    exists None. split; [done|]. intros s _. by apply check_price_absent.
Qed.

Lemma apply_update_other_flag pt pt' u state :
  pt <> pt' ->
  get_flag (apply_update pt u state) (notified_key pt')
  = get_flag state (notified_key pt').
Proof.
  intros Hne.
  assert (Hk : notified_key pt <> notified_key pt')
    by (intros H; by apply Hne, notified_key_inj).
  destruct u as [[price [b|]]|]; simpl;
    by rewrite ?(get_flag_insert_ne _ _ _ _ Hk), ?get_flag_price.
Qed.

Lemma apply_update_commute pt pt' u u' state :
  pt <> pt' ->
  apply_update pt u (apply_update pt' u' state)
  = apply_update pt' u' (apply_update pt u state).
Proof.
  intros Hne. apply map_eq. intros k.
  destruct pt, pt'; try done;
    destruct u as [[price [b|]]|], u' as [[price' [b'|]]|]; simpl;
    rewrite ?lookup_insert; repeat case_decide; by subst.
Qed.

(** X14: checks of different commodities commute: made in either order
    they leave the same state and make the same delivery calls. *)
Theorem checks_of_different_commodities_commute
    w1 w2 pt1 pt2 url1 url2 target1 target2 state state1 state12 sent1 sent2 :
  pt1 <> pt2 ->
  check_price w1 pt1 url1 target1 state = (Returns state1, sent1) ->
  check_price w2 pt2 url2 target2 state1 = (Returns state12, sent2) ->
  exists state2,
    check_price w2 pt2 url2 target2 state = (Returns state2, sent2) /\
    check_price w1 pt1 url1 target1 state2 = (Returns state12, sent1).
Proof.
  intros Hne H1 H2.
  destruct (check_price_update _ _ _ _ _ _ _ H1) as (u1 & _ & Hu1).
  destruct (check_price_update _ _ _ _ _ _ _ H2) as (u2 & _ & Hu2).
  rewrite (Hu1 state eq_refl) in H1. injection H1 as <-.
  rewrite (Hu2 _ eq_refl) in H2. injection H2 as <-.
  exists (apply_update pt2 u2 state). split.
  - apply Hu2. by rewrite apply_update_other_flag.
  - rewrite (apply_update_commute pt2 pt1) by done.
    apply Hu1. by rewrite apply_update_other_flag.
Qed.

Lemma checks_of_different_commodities_commute_witness :
  exists state2,
    check_price (serving "0,70 €/Smc" (Returns true)) gas GAS_TARIFF_URL f_0_85
      (load_state None)
    = (Returns state2,
       [{| msg_type := gas; msg_price := decimal_to_float 70 2;
           msg_target := f_0_85; msg_url := GAS_TARIFF_URL |}]) /\
    check_price (serving "0.05 €/kWh" (Returns true)) electricity
      ELECTRICITY_TARIFF_URL f_0_11 state2
    = (Returns (<[notified_key gas := VBool true]>
                  (<[last_price_key gas := VFloat (decimal_to_float 70 2)]>
                     hysteresis_state)),
       [{| msg_type := electricity; msg_price := f_0_05;
           msg_target := f_0_11; msg_url := ELECTRICITY_TARIFF_URL |}]).
Proof.
  apply (checks_of_different_commodities_commute
           (serving "0.05 €/kWh" (Returns true))
           (serving "0,70 €/Smc" (Returns true))
           electricity gas ELECTRICITY_TARIFF_URL GAS_TARIFF_URL f_0_11 f_0_85
           (load_state None) hysteresis_state);
    [discriminate|reflexivity|reflexivity].
Defined.

(* ===================================================================== *)
(** ** main *)
(* ===================================================================== *)

Lemma load_state_well_formed file : file_ok file -> well_formed (load_state file).
Proof.
  destruct file as [state|]; [done|]. intros _. split.
  - unfold load_state. rewrite !dom_insert_L, dom_empty_L. set_solver.
  - intros pt. split; [exists false|left]; by destruct pt.
Qed.

Lemma dom_insert_present (state : gmap string value) k v :
  k ∈ dom state -> dom (<[k := v]> state) = dom state.
Proof.
  intros Hk. rewrite dom_insert_L.
  by apply subseteq_union_1_L, singleton_subseteq_l.
Qed.

Lemma apply_update_well_formed pt u state :
  update_price_nonneg u -> well_formed state ->
  well_formed (apply_update pt u state).
Proof.
  intros Hu [Hdom Hfields].
  assert (Hl : last_price_key pt ∈ dom state)
    by (rewrite Hdom; destruct pt; set_solver).
  assert (Hn : notified_key pt ∈ dom state)
    by (rewrite Hdom; destruct pt; set_solver).
  split.
  - destruct u as [[price [b|]]|]; simpl; [| |done];
      rewrite ?dom_insert_present; try done; by rewrite dom_insert_present.
  - intros pt'. destruct (Hfields pt') as [Hflag Hprice].
    destruct u as [[price [b|]]|]; simpl in *; [| |done].
    + split.
      * rewrite lookup_insert. case_decide; [by eexists|].
        by rewrite lookup_insert_ne by apply price_key_not_flag_key.
      * rewrite lookup_insert_ne
          by (apply not_eq_sym, price_key_not_flag_key).
        rewrite lookup_insert. case_decide; [|done]. right. by exists price.
    + split.
      * by rewrite lookup_insert_ne by apply price_key_not_flag_key.
      * rewrite lookup_insert. case_decide; [|done]. right. by exists price.
Qed.

Lemma check_price_well_formed w pt url target state state' sent :
  check_price w pt url target state = (Returns state', sent) ->
  well_formed state -> well_formed state'.
Proof.
  intros Hcheck Hstate.
  destruct (check_price_update _ _ _ _ _ _ _ Hcheck) as (u & Hu & Hupd).
  rewrite (Hupd state eq_refl) in Hcheck. injection Hcheck as <-.
  by apply apply_update_well_formed.
Qed.

Lemma main_keeps_file_ok c w file : file_ok file -> file_ok (fst (main c w file)).
Proof.
  intros Hfile. unfold main. cbv zeta.
  destruct (check_price w electricity _ _ _) as [[state1|] sent1] eqn:H1; [|done].
  destruct (check_price w gas _ _ _) as [[state2|] sent2] eqn:H2; [|done].
  simpl. apply (check_price_well_formed _ _ _ _ _ _ _ H2).
  apply (check_price_well_formed _ _ _ _ _ _ _ H1).
  by apply load_state_well_formed.
Qed.

(** X15: starting without a state file, after any number of runs the
    state file, once written, holds exactly the four fields, each lock a
    boolean and each last price [null] or a float that is neither
    negative nor NaN. *)
Theorem state_file_stays_well_formed c ws :
  file_ok (run_main c ws None).
Proof.
  assert (Hgen : forall file, file_ok file -> file_ok (run_main c ws file)).
  { induction ws as [|w ws IH]; intros file Hfile; simpl; [done|].
    by apply IH, main_keeps_file_ok. }
  by apply Hgen.
Qed.

(** X16: a run in which neither page yields a price writes the loaded
    state back unchanged (the defaults when there was no file) and makes
    no delivery call. *)
Theorem run_without_prices_saves_loaded_state c w file :
  fetch_price_by_scraping w ELECTRICITY_TARIFF_URL electricity = None ->
  fetch_price_by_scraping w GAS_TARIFF_URL gas = None ->
  main c w file = (Some (load_state file), []).
Proof.
  intros He Hg. unfold main. cbv zeta.
  by rewrite (check_price_absent _ _ _ _ _ He), (check_price_absent _ _ _ _ _ Hg).
Qed.

Lemma run_without_prices_saves_loaded_state_witness :
  main {| TARGET_ELECTRICITY_PRICE := f_0_11; TARGET_GAS_PRICE := f_0_85 |}
    (unreachable (Returns true)) None
  = (Some (load_state None), []).
Proof.
  apply (run_without_prices_saves_loaded_state _ (unreachable (Returns true)) None);
    reflexivity.
Defined.

(** X17: an exception in the gas delivery loses the whole run: the state
    file stays as it was although the electricity alert was delivered, so
    the next run in the same world delivers the electricity alert again. *)
Theorem delivery_exception_loses_the_run c w file pe pg :
  let alert_e := {| msg_type := electricity; msg_price := pe;
                    msg_target := TARGET_ELECTRICITY_PRICE c;
                    msg_url := ELECTRICITY_TARIFF_URL |} in
  let alert_g := {| msg_type := gas; msg_price := pg;
                    msg_target := TARGET_GAS_PRICE c;
                    msg_url := GAS_TARIFF_URL |} in
  fetch_price_by_scraping w ELECTRICITY_TARIFF_URL electricity = Some pe ->
  flt pe (TARGET_ELECTRICITY_PRICE c) = true ->
  get_flag (load_state file) (notified_key electricity) = false ->
  send_telegram_message w alert_e = Returns true ->
  fetch_price_by_scraping w GAS_TARIFF_URL gas = Some pg ->
  flt pg (TARGET_GAS_PRICE c) = true ->
  get_flag (load_state file) (notified_key gas) = false ->
  send_telegram_message w alert_g = Raises ->
  main c w file = (file, [alert_e; alert_g]) /\
  main c w (fst (main c w file)) = (file, [alert_e; alert_g]).
Proof.
  intros alert_e alert_g He Hlow_e Hlock_e Hsend_e Hg Hlow_g Hlock_g Hsend_g.
  assert (Hmain : main c w file = (file, [alert_e; alert_g])).
  { unfold main. cbv zeta.
    rewrite (check_price_alerts _ _ _ _ _ _ true He Hlow_e Hlock_e Hsend_e).
    rewrite (check_price_observed _ _ _ _ _ _ Hg). cbv zeta.
    rewrite Hlow_g.
    rewrite (get_flag_insert_ne _ (notified_key electricity)) by done.
    rewrite get_flag_price, Hlock_g. simpl.
    fold alert_g. by rewrite Hsend_g. }
  split; [done|]. by rewrite Hmain.
Qed.

Lemma delivery_exception_loses_the_run_witness :
  let c := {| TARGET_ELECTRICITY_PRICE := f_0_11; TARGET_GAS_PRICE := f_0_85 |} in
  let w := gas_delivery_raises "0.05 €/kWh 0.70 €/Smc" in
  let alert_e := {| msg_type := electricity; msg_price := f_0_05;
                    msg_target := f_0_11; msg_url := ELECTRICITY_TARIFF_URL |} in
  let alert_g := {| msg_type := gas; msg_price := decimal_to_float 70 2;
                    msg_target := f_0_85; msg_url := GAS_TARIFF_URL |} in
  main c w None = (None, [alert_e; alert_g]) /\
  main c w (fst (main c w None)) = (None, [alert_e; alert_g]).
Proof.
  intros c w alert_e alert_g.
  apply (delivery_exception_loses_the_run c w None f_0_05 (decimal_to_float 70 2));
    reflexivity.
Defined.

(* ===================================================================== *)
(** ** From the page to the alert *)
(* ===================================================================== *)

Lemma fetch_quoted_price w url pt r prefix ip sep fp suffix :
  requests_get w url = Returns r -> status_ok r = true ->
  forallb (fun c => negb (is_digit c)) prefix = true ->
  text r = prefix ++ ip ++ sep :: fp ++ txt " " ++ unit_label pt ++ suffix ->
  is_numeral ip sep fp = true ->
  float_truthy (numeral_value ip fp) = true ->
  fetch_price_by_scraping w url pt = Some (numeral_value ip fp).
Proof.
  intros Hget Hok Hprefix Htext Hnum Htruthy.
  assert (Hhtml : extract_price_from_text (text r) pt
                  = Returns (Some (numeral_value ip fp))).
  { rewrite Htext. by apply extract_quoted_price. }
  rewrite (fetch_scrapes _ _ _ _ Hget Hok). cbv zeta.
  by rewrite Hhtml, Htruthy.
Qed.

(** X18: from the page to the state: when in the page served with a
    good status a numeral, a blank and the unit of the commodity follow a
    part of plain code points without digits (whatever comes after), and
    the value of the numeral is not zero, then (a) if the value is below
    target, the lock is clear, the credentials are set and the post
    succeeds, one alert is delivered and the state records the price and
    the lock; (b) if the value is at or above target and the lock is set,
    no call is made and the state records the price and a clear lock. *)
Theorem quoted_price_drives_the_alert
    w pt url target state r prefix ip sep fp suffix :
  requests_get w url = Returns r -> status_ok r = true ->
  forallb (fun c => plain c && negb (is_digit c)) prefix = true ->
  text r = prefix ++ ip ++ sep :: fp ++ txt " " ++ unit_label pt ++ suffix ->
  is_numeral ip sep fp = true ->
  float_truthy (numeral_value ip fp) = true ->
  let price := numeral_value ip fp in
  let alert := {| msg_type := pt; msg_price := price;
                  msg_target := target; msg_url := url |} in
  (flt price target = true ->
   get_flag state (notified_key pt) = false ->
   no_credentials w = false ->
   requests_post w alert = Returns true ->
   check_price w pt url target state
   = (Returns (<[notified_key pt := VBool true]>
                 (<[last_price_key pt := VFloat price]> state)), [alert])) /\
  (fge price target = true ->
   get_flag state (notified_key pt) = true ->
   check_price w pt url target state
   = (Returns (<[notified_key pt := VBool false]>
                 (<[last_price_key pt := VFloat price]> state)), [])).
Proof.
  intros Hget Hok Hprefix Htext Hnum Htruthy price alert.
  pose proof (fetch_quoted_price _ _ _ _ _ _ _ _ _ Hget Hok
                (plain_nondigits _ Hprefix) Htext Hnum Htruthy) as Hobs.
  split.
  - intros Hlow Hlock Hcred Hpost.
    apply (check_price_alerts _ _ _ _ _ _ true Hobs Hlow Hlock).
    unfold send_telegram_message. unfold no_credentials in Hcred.
    by rewrite Hcred.
  - intros Hhigh Hlock. by apply check_price_recovers.
Qed.

Lemma quoted_price_drives_the_alert_witness :
  let page := "<p>Luce: 0,0950 €/kWh</p><p>Gas: 0,70 €/Smc</p>" in
  let w := {| TELEGRAM_TOKEN := Some (txt "token");
              TELEGRAM_CHAT_ID := Some (txt "chat");
              requests_get := fun _ =>
                Returns {| status_code := 200; text := txt page |};
              visible_text := fun _ =>
                Returns (txt "Luce: 0,0950 €/kWh Gas: 0,70 €/Smc");
              requests_post := fun _ => Returns true |} in
  check_price w electricity ELECTRICITY_TARIFF_URL f_0_11 (load_state None)
  = (Returns (<[notified_key electricity := VBool true]>
                (<[last_price_key electricity
                   := VFloat (numeral_value (txt "0") (txt "0950"))]>
                   (load_state None))),
     [{| msg_type := electricity;
         msg_price := numeral_value (txt "0") (txt "0950");
         msg_target := f_0_11; msg_url := ELECTRICITY_TARIFF_URL |}]).
Proof.
  intros page w.
  apply (quoted_price_drives_the_alert w
           electricity ELECTRICITY_TARIFF_URL f_0_11 (load_state None)
           {| status_code := 200; text := txt page |}
           (txt "<p>Luce: ") (txt "0") 44%N (txt "0950")
           (txt "</p><p>Gas: 0,70 €/Smc</p>"));
    vm_compute; reflexivity.
Defined.

(* ===================================================================== *)
(** ** Blanks between the numeral and the unit *)
(* ===================================================================== *)

Lemma star_match_lacking {R} k c w (kont : str -> option R) :
  (forall t, ~ In c t -> kont t = None) ->
  ~ In c w -> star_match k w kont = None.
Proof.
  intros Hkont. induction w as [|a w IH]; intros Hw; simpl.
  - by apply Hkont.
  - rewrite IH by (intros Hin; apply Hw; by right).
    rewrite (Hkont (a :: w) Hw). by destruct (in_class k a).
Qed.

Lemma space_range c :
  is_space c = true ->
  (9 <= c <= 13 \/ 28 <= c <= 32 \/ c = 133 \/ c = 160 \/ c = 5760 \/
   8192 <= c <= 8202 \/ c = 8232 \/ c = 8233 \/ c = 8239 \/ c = 8287 \/
   c = 12288)%N.
Proof.
  unfold is_space. rewrite !orb_true_iff, !andb_true_iff, !N.leb_le, !N.eqb_eq.
  lia.
Qed.

Lemma space_lower c : is_space c = true -> lower_char c = c.
Proof.
  intros Hc%space_range. unfold lower_char.
  destruct ((65 <=? c) && (c <=? 90))%N eqn:Hcap; [|done].
  apply andb_true_iff in Hcap as [H65 H90]. apply N.leb_le in H65, H90. lia.
Qed.

Lemma space_not_digit c : is_space c = true -> is_digit c = false.
Proof.
  intros Hc. destruct (is_digit c) eqn:Hd; [|done].
  by rewrite (digit_not_space _ Hd) in Hc.
Qed.

Lemma py_lower_blanks blanks :
  forallb is_space blanks = true -> py_lower blanks = blanks.
Proof.
  induction blanks as [|c blanks IH]; [done|]. cbn [forallb py_lower List.map].
  intros [Hc Hblanks]%andb_true_iff. fold (py_lower blanks).
  by rewrite (space_lower _ Hc), IH.
Qed.

Lemma blanks_lack c blanks :
  is_space c = false -> forallb is_space blanks = true -> ~ In c blanks.
Proof.
  intros Hc Hblanks Hin.
  apply forallb_forall with (x := c) in Hblanks; [congruence|exact Hin].
Qed.

(** With no [<] ahead the optional comment is skipped, and the blanks are
    taken by the [\s*] that follows it. *)
Lemma rmatch_comment_blanks {R} rest blanks s g
    (kont : str -> option str -> option R) x :
  forallb is_space blanks = true -> ~ In 60%N s ->
  star_match Space s (fun s' => rmatch rest s' g kont) = Some x ->
  rmatch (comment ⋅ ws ⋅ rest) (blanks ++ s) g kont = Some x.
Proof.
  intros Hblanks Hs Hrest. unfold comment, ws. cbn [rmatch].
  rewrite (star_match_lacking Space 60%N).
  - by apply star_match_greedy.
  - intros [|a t] Ht; [done|]. change (lit "<!--") with
      (One (Lit 60%N) ⋅ One (Lit 33%N) ⋅ One (Lit 45%N) ⋅ One (Lit 45%N))%re.
    cbn [rmatch in_class]. destruct (N.eqb_spec a 60%N) as [->|]; [|done].
    destruct Ht. by left.
  - intros [Hin|Hin]%in_app_or; [|by apply Hs].
    by apply (blanks_lack 60%N blanks).
Qed.

(** X20: any run of blanks (spaces, tabs, line ends, no-break spaces; an
    empty run too) may stand between the numeral and the unit of the
    commodity: the value of the numeral is returned all the same. *)
Theorem blanks_before_unit_are_skipped pt ip sep fp blanks :
  is_numeral ip sep fp = true ->
  forallb is_space blanks = true ->
  extract_price_from_text (ip ++ sep :: fp ++ blanks ++ unit_label pt) pt
  = Returns (Some (numeral_value ip fp)).
Proof.
  intros Hnum Hblanks.
  assert (Hlower : py_lower (ip ++ sep :: fp ++ blanks ++ unit_label pt)
                   = ip ++ sep :: fp ++ blanks ++ py_lower (unit_label pt)).
  { rewrite (py_lower_numeral _ _ _ _ Hnum). unfold py_lower at 1.
    rewrite map_app. fold (py_lower blanks).
    by rewrite (py_lower_blanks _ Hblanks). }
  assert (Hend : digits_end (blanks ++ py_lower (unit_label pt)) = true).
  { destruct blanks as [|c blanks]; [by destruct pt|].
    cbn [forallb] in Hblanks. apply andb_true_iff in Hblanks as [Hc _].
    simpl. by rewrite (space_not_digit _ Hc). }
  destruct pt.
  - eapply (extract_leading_numeral electricity); first
      [reflexivity|exact Hnum|exact Hlower|exact Hend|idtac].
    apply rmatch_comment_blanks; [exact Hblanks| |reflexivity].
    vm_compute. intros Hin. repeat destruct Hin as [Hin|Hin]; done.
  - eapply (extract_leading_numeral gas); first
      [reflexivity|exact Hnum|exact Hlower|exact Hend|idtac].
    apply rmatch_comment_blanks; [exact Hblanks| |reflexivity].
    vm_compute. intros Hin. repeat destruct Hin as [Hin|Hin]; done.
Qed.

Lemma blanks_before_unit_are_skipped_witness :
  extract_price_from_text
    (txt "0" ++ 44%N :: txt "1067" ++ [160; 10; 9; 32]%N ++ unit_label electricity)
    electricity
  = Returns (Some (numeral_value (txt "0") (txt "1067"))).
Proof.
  apply (blanks_before_unit_are_skipped electricity (txt "0") 44%N (txt "1067")
           [160; 10; 9; 32]%N); reflexivity.
Defined.
